(** * monitoring-mcp: startup gate, health probe, ping tool, configuration

    A shallow embedding of the TypeScript sources of the MCP server
    (mcp/src/index.ts, clickhouse.ts, config.ts, server.ts, tools/ping.ts)
    together with the properties stated about them.  The transport
    (mcp/src/transport.ts) is not among the sources and is modelled from
    the specification.

    Asynchronous code is sequential here: every [await] in the sources is
    awaited before the next statement runs, so a [Promise<A>] is a
    computation in the monad [M] below, which threads the observable
    world and ends in a value, a thrown error or a process exit. *)

From Stdlib Require Import ZArith Lia Ascii String.
From stdpp Require Import base option list gmap strings pretty.

Open Scope string_scope.
Open Scope list_scope.
Open Scope Z_scope.

(** ** JavaScript values the program handles *)

(** A JavaScript number.  Finite doubles are rationals; they are kept as an
    exact fraction [num/den].  The program only ever asks of a number
    whether it is NaN, whether it is an integer and whether it is positive. *)
Inductive JSNumber :=
| JNaN
| JInfinity (negative : bool)
| JFinite (num : Z) (den : positive).

Definition number_of_Z (z : Z) : JSNumber := JFinite z 1.

(** [Number.isNaN] *)
Definition isNaN (n : JSNumber) : bool :=
  match n with JNaN => true | _ => false end.

(** [Number.isInteger]: false on NaN and on the infinities. *)
Definition isInteger (n : JSNumber) : bool :=
  match n with
  | JFinite num den => (num mod Z.pos den =? 0)%Z
  | _ => false
  end.

(** [n > 0] *)
Definition gt_zero (n : JSNumber) : bool :=
  match n with
  | JNaN => false
  | JInfinity negative => negb negative
  | JFinite num _ => (0 <? num)%Z
  end.

(** One validation issue of a [ZodError]: the field it is about, its kind,
    and the message when the schema sets one itself. *)
Inductive IssueCode := invalid_type | invalid_string | too_small.

Record ZodIssue := mkIssue {
  issue_path : list string;
  issue_code : IssueCode;
  issue_message : option string
}.

(** Values that are thrown or that reject a promise. *)
Inductive JsError :=
| ZodError (issues : list ZodIssue)
| Error (message : string).

(** How one call of the store client's native [ping()] settles: the promise
    resolves with [{ success }] or it rejects. *)
Inductive PingOutcome :=
| Resolved (success : bool)
| Rejected (reason : JsError).

(** ** The host: library and platform functions the sources call *)

Class Host := {
  (** zod's [z.string().url()] test: the string parses as an absolute URL *)
  isUrl : string -> bool;
  (** the global [Number(s)] that [z.coerce.number()] applies *)
  Number : string -> JSNumber;
  (** [String(n)], as a template literal applies it to a number *)
  numberToString : JSNumber -> string;
  (** [Date.prototype.toISOString] of the instant [t] (ms since the epoch) *)
  toISOString : Z -> string;
  (** the store reached at a URL: how the [n]-th native ping (from 0) settles *)
  storePing : string -> nat -> PingOutcome;
  (** the error with which binding a listener to a port fails, if it fails *)
  listenError : JSNumber -> option JsError
}.

(** ** Observable world and the computation monad *)

Inductive Event :=
| EvPing (outcome : PingOutcome)              (* client.ping() settled *)
| EvLog (line : string)                       (* console.log *)
| EvError (line : string) (err : option JsError) (* console.error *)
| EvSleep (ms : Z)                            (* an awaited setTimeout *)
| EvListen (port : JSNumber)                  (* startHttpServer was asked to listen *)
| EvDispatch (body : string).                 (* a message reached the registry *)

Record World := mkWorld {
  pings : nat;          (* native pings issued so far *)
  now : Z;              (* the clock, in ms; it advances by awaited timers *)
  trace : list Event    (* what happened, oldest first *)
}.

Inductive Outcome (A : Type) :=
| Completed (a : A)
| Thrown (e : JsError)
| Exited (code : Z).
Arguments Completed {A} a.
Arguments Thrown {A} e.
Arguments Exited {A} code.

Definition M (A : Type) : Type := World -> Outcome A * World.

Definition ret {A} (a : A) : M A := fun w => (Completed a, w).

Definition bind {A B} (m : M A) (k : A -> M B) : M B :=
  fun w =>
    match m w with
    | (Completed a, w') => k a w'
    | (Thrown e, w') => (Thrown e, w')
    | (Exited c, w') => (Exited c, w')
    end.

Declare Scope js_scope.
Delimit Scope js_scope with js.
Notation "'let*' x ':=' m 'in' k" := (bind m (fun x => k))
  (at level 10, x name, m at level 100, k at level 200) : js_scope.
Notation "m ';;' k" := (bind m (fun _ => k))
  (at level 100, k at level 200, right associativity) : js_scope.
Open Scope js_scope.

(** [throw e] *)
Definition throw {A} (e : JsError) : M A := fun w => (Thrown e, w).

(** [process.exit(code)]: nothing after it runs, no handler sees it. *)
Definition process_exit {A} (code : Z) : M A := fun w => (Exited code, w).

(** [try { m } catch (e) { h e }] and [m.catch(h)] *)
Definition try_catch {A} (m : M A) (h : JsError -> M A) : M A :=
  fun w =>
    match m w with
    | (Thrown e, w') => h e w'
    | r => r
    end.

Definition emit (e : Event) : M unit :=
  fun w => (Completed tt, mkWorld (pings w) (now w) (trace w ++ [e])).

Definition console_log (line : string) : M unit := emit (EvLog line).

Definition console_error (line : string) (err : option JsError) : M unit :=
  emit (EvError line err).

(** [await new Promise((r) => setTimeout(r, ms))] *)
Definition sleep (ms : Z) : M unit :=
  fun w => (Completed tt, mkWorld (pings w) (now w + ms) (trace w ++ [EvSleep ms])).

(** [new Date()]: the current instant. *)
Definition date_now : M Z := fun w => (Completed (now w), w).

(** ** clickhouse.ts, the probe *)

(** A [ClickHouseClient]: the URL it was created for and its [ping()],
    given as the outcome of the [n]-th native ping the process issues. *)
Record ClickHouseClient := mkClient {
  client_url : string;
  client_ping : nat -> PingOutcome
}.

(** [client.ping()], awaited: a rejection is thrown at the [await]. *)
Definition native_ping (client : ClickHouseClient) : M bool :=
  fun w =>
    let o := client_ping client (pings w) in
    let w' := mkWorld (S (pings w)) (now w) (trace w ++ [EvPing o]) in
    match o with
    | Resolved success => (Completed success, w')
    | Rejected reason => (Thrown reason, w')
    end.

Definition checkClickHouseHealth (client : ClickHouseClient) : M bool :=
  try_catch
    (let* success := native_ping client in
     ret success)
    (fun _ => ret false).

(** ** tools/ping.ts *)

Inductive PingStatus := ok | error.

Record PingResult := mkPingResult {
  status : PingStatus;
  clickhouse : bool;
  timestamp : string
}.

Definition ping `{Host} (client : ClickHouseClient) : M PingResult :=
  let* clickhouse := checkClickHouseHealth client in
  let* t := date_now in
  ret {| status := if clickhouse then ok else error;
         clickhouse := clickhouse;
         timestamp := toISOString t |}.

(** ** config.ts *)

Record Config := mkConfig {
  clickhouseUrl : string;
  mcpApiKey : string;
  mcpPort : JSNumber
}.

(** The result of parsing one value against a schema. *)
Inductive ParseResult (A : Type) :=
| Valid (a : A)
| Invalid (issues : list ZodIssue).
Arguments Valid {A} a.
Arguments Invalid {A} issues.

Definition issues_of {A} (r : ParseResult A) : list ZodIssue :=
  match r with Valid _ => [] | Invalid issues => issues end.

(** The values [loadConfig] hands to the schema are environment entries:
    a string, or [undefined] ([None]). *)
Definition Schema (A : Type) : Type := option string -> ParseResult A.

(** A check of a string or number schema: the issue it raises, if any. *)
Definition ZodCheck (A : Type) : Type := A -> option ZodIssue.

Definition run_checks {A} (checks : list (ZodCheck A)) (a : A) : ParseResult A :=
  match omap (fun chk => chk a) checks with
  | [] => Valid a
  | issues => Invalid issues
  end.

(** [z.string()] followed by its checks: [undefined] is not a string. *)
Definition z_string (checks : list (ZodCheck string)) : Schema string :=
  fun input =>
    match input with
    | None => Invalid [mkIssue [] invalid_type None]
    | Some s => run_checks checks s
    end.

(** [.url()] *)
Definition url_check `{Host} : ZodCheck string :=
  fun s => if isUrl s then None else Some (mkIssue [] invalid_string None).

(** [.min(n, message)] on a string *)
Definition min_check (n : nat) (message : string) : ZodCheck string :=
  fun s =>
    if (String.length s <? n)%nat
    then Some (mkIssue [] too_small (Some message))
    else None.

(** [z.coerce.number()] followed by its checks: the input goes through
    [Number(...)] ([Number(undefined)] is NaN), and NaN is not a number. *)
Definition z_coerce_number `{Host} (checks : list (ZodCheck JSNumber)) : Schema JSNumber :=
  fun input =>
    let n := match input with None => JNaN | Some s => Number s end in
    if isNaN n then Invalid [mkIssue [] invalid_type None]
    else run_checks checks n.

(** [.int()] *)
Definition int_check : ZodCheck JSNumber :=
  fun n => if isInteger n then None else Some (mkIssue [] invalid_type None).

(** [.positive()] *)
Definition positive_check : ZodCheck JSNumber :=
  fun n => if gt_zero n then None else Some (mkIssue [] too_small None).

(** [.default(d)]: [undefined] becomes [d]; anything else goes to the
    schema it wraps. *)
Definition z_default {A} (inner : Schema A) (d : A) : Schema A :=
  fun input =>
    match input with
    | None => Valid d
    | Some _ => inner input
    end.

(** A field of [z.object]: issues are reported under the field's name. *)
Definition field {A} (name : string) (r : ParseResult A) : ParseResult A :=
  match r with
  | Valid a => Valid a
  | Invalid issues =>
      Invalid (map (fun i => mkIssue (name :: issue_path i) (issue_code i)
                                     (issue_message i)) issues)
  end.

(** The object literal [loadConfig] builds from the environment. *)
Record ConfigInput := mkConfigInput {
  in_clickhouseUrl : option string;
  in_mcpApiKey : option string;
  in_mcpPort : option string
}.

Definition default_clickhouseUrl : string := "http://localhost:8123".
Definition default_mcpPort : JSNumber := number_of_Z 3001.

Section Schema.
Context `{Host}.

Definition clickhouseUrl_schema : Schema string :=
  z_default (z_string [url_check]) default_clickhouseUrl.

Definition mcpApiKey_schema : Schema string :=
  z_string [min_check 1 "MCP_API_KEY is required"].

Definition mcpPort_schema : Schema JSNumber :=
  z_default (z_coerce_number [int_check; positive_check]) default_mcpPort.

(** [configSchema.parse(input)]: every field is parsed, the issues of all
    fields are collected, and a [Config] exists only if there are none. *)
Definition configSchema_safeParse (input : ConfigInput) : ParseResult Config :=
  let url := field "clickhouseUrl" (clickhouseUrl_schema (in_clickhouseUrl input)) in
  let key := field "mcpApiKey" (mcpApiKey_schema (in_mcpApiKey input)) in
  let port := field "mcpPort" (mcpPort_schema (in_mcpPort input)) in
  match url, key, port with
  | Valid u, Valid k, Valid p => Valid (mkConfig u k p)
  | _, _, _ => Invalid (issues_of url ++ issues_of key ++ issues_of port)
  end.

Definition configSchema_parse (input : ConfigInput) : M Config :=
  match configSchema_safeParse input with
  | Valid config => ret config
  | Invalid issues => throw (ZodError issues)
  end.

(** [v || undefined] on an environment entry: the empty string is falsy. *)
Definition or_undefined (v : option string) : option string :=
  match v with
  | Some EmptyString => None
  | _ => v
  end.

(** [process.env] is the finite map [env]. *)
Definition config_input (env : gmap string string) : ConfigInput :=
  {| in_clickhouseUrl := or_undefined (env !! "CLICKHOUSE_URL");
     in_mcpApiKey := env !! "MCP_API_KEY";
     in_mcpPort := or_undefined (env !! "MCP_PORT") |}.

Definition loadConfig (env : gmap string string) : M Config :=
  configSchema_parse (config_input env).

End Schema.

(** ** clickhouse.ts, the constructor *)

(** [createClickHouseClient]: a client for the store at the configured URL.
    Creating it contacts nothing. *)
Definition createClickHouseClient `{Host} (config : Config) : ClickHouseClient :=
  {| client_url := clickhouseUrl config;
     client_ping := storePing (clickhouseUrl config) |}.

(** ** server.ts *)

(** [JSON.stringify] of a string: the quoted text with its escapes. *)
Definition hex_digit (n : N) : ascii :=
  ascii_of_N (if (n <? 10)%N then 48 + n else 87 + n).

Definition json_escape_char (c : ascii) : string :=
  let n := N_of_ascii c in
  if (n =? 34)%N then "\" +:+ String c EmptyString
  else if (n =? 92)%N then "\" +:+ String c EmptyString
  else if (n =? 8)%N then "\b"
  else if (n =? 9)%N then "\t"
  else if (n =? 10)%N then "\n"
  else if (n =? 12)%N then "\f"
  else if (n =? 13)%N then "\r"
  else if (n <? 32)%N then
    "\u00" +:+ String (hex_digit (n / 16)) (String (hex_digit (n mod 16)) EmptyString)
  else String c EmptyString.

Fixpoint json_escape (s : string) : string :=
  match s with
  | EmptyString => EmptyString
  | String c rest => json_escape_char c +:+ json_escape rest
  end.

Definition dquote : string := String (ascii_of_N 34) EmptyString.
Definition newline : string := String (ascii_of_N 10) EmptyString.

Definition json_quote (s : string) : string := dquote +:+ json_escape s +:+ dquote.

Definition status_text (s : PingStatus) : string :=
  match s with ok => "ok" | error => "error" end.

(** [JSON.stringify(result, null, 2)] of a [PingResult] *)
Definition stringify_PingResult (r : PingResult) : string :=
  "{" +:+ newline +:+
  "  " +:+ json_quote "status" +:+ ": " +:+ json_quote (status_text (status r)) +:+ "," +:+ newline +:+
  "  " +:+ json_quote "clickhouse" +:+ ": " +:+ (if clickhouse r then "true" else "false") +:+ "," +:+ newline +:+
  "  " +:+ json_quote "timestamp" +:+ ": " +:+ json_quote (timestamp r) +:+ newline +:+
  "}".

Record ToolContent := mkContent {
  content_type : string;
  content_text : string
}.

Record ToolResult := mkToolResult { content : list ToolContent }.

Record Tool := mkTool {
  tool_name : string;
  tool_description : string;
  tool_handler : M ToolResult
}.

Record McpServer := mkMcpServer {
  server_name : string;
  server_version : string;
  server_tools : list Tool
}.

Definition createMcpServer `{Host} (clickhouse : ClickHouseClient) : McpServer :=
  {| server_name := "monitoring-mcp";
     server_version := "0.1.0";
     server_tools :=
       [ {| tool_name := "ping";
            tool_description := "Check MCP server and ClickHouse connectivity";
            tool_handler :=
              let* result := ping clickhouse in
              ret {| content := [ {| content_type := "text";
                                     content_text := stringify_PingResult result |} ] |}
         |} ] |}.

(** ** transport.ts *)

(** The protocol layer of the MCP SDK: how a registered server answers one
    protocol message. *)
Class McpSdk := {
  handleMessage : McpServer -> string -> M string
}.

(** An inbound HTTP request.  Header names are case-insensitive in HTTP; the
    map holds them in lower case, as Node's [req.headers] does. *)
Record Request := mkRequest {
  req_method : string;
  req_path : string;
  req_headers : gmap string string;
  req_body : string
}.

Inductive Body :=
| NoBody
| JsonObject (fields : list (string * string))  (* a flat JSON object of strings *)
| Serialized (text : string).                   (* the protocol layer's own text *)

Record Response := mkResponse {
  res_status : Z;
  res_body : Body
}.

Definition unauthorized : Response := {| res_status := 401; res_body := NoBody |}.

(** Modelled from the spec: the request handler of transport.ts, which is
    not among the sources (index.ts and tests/unit/auth.test.ts only import
    it).  Section 4.4 and section 6 of the specification give it: the
    liveness path [GET /health] answers [200 { status: "ok" }] without
    authentication; the protocol path [POST /mcp] answers 401 unless the
    [Authorization] header is present and equal to ["Bearer "] followed by
    the configured secret, and only then hands the body to the protocol
    layer and returns its serialized result.  The specification names no
    other route; the 404 for them is the model's own and no property below
    depends on it. *)
Definition handleRequest `{McpSdk} (server : McpServer) (config : Config)
    (req : Request) : M Response :=
  if String.eqb (req_method req) "GET" && String.eqb (req_path req) "/health" then
    ret {| res_status := 200; res_body := JsonObject [("status", "ok")] |}
  else if String.eqb (req_method req) "POST" && String.eqb (req_path req) "/mcp" then
    match req_headers req !! "authorization" with
    | None => ret unauthorized
    | Some presented =>
        if String.eqb presented ("Bearer " +:+ mcpApiKey config) then
          emit (EvDispatch (req_body req));;
          let* reply := handleMessage server (req_body req) in
          ret {| res_status := 200; res_body := Serialized reply |}
        else ret unauthorized
    end
  else ret {| res_status := 404; res_body := NoBody |}.

Record HttpServer := mkHttpServer {
  listen_port : JSNumber;
  on_request : Request -> M Response
}.

(** Modelled from the spec: [startHttpServer] of transport.ts, which is not
    among the sources.  Section 4.4: it binds a listener to the configured
    port and serves the two routes of [handleRequest]; the section speaks of
    error paths during startup, so the binding may fail, as the host
    decides, and the failure is thrown. *)
Definition startHttpServer `{Host} `{McpSdk} (server : McpServer) (config : Config)
    : M HttpServer :=
  emit (EvListen (mcpPort config));;
  match listenError (mcpPort config) with
  | Some err => throw err
  | None =>
      ret {| listen_port := mcpPort config;
             on_request := handleRequest server config |}
  end.

(** ** index.ts *)

Section Gate.
Variable clickhouse : ClickHouseClient.

(** The two constants of the retry loop.  [main] fixes them to 30 and 2000;
    the loop is stated over them so that it can be studied at every value. *)
Variable maxAttempts : nat.
Variable delayMs : Z.

Definition healthy_line (i : nat) : string :=
  "ClickHouse healthy after " +:+ pretty i +:+ " attempt(s)".

Definition not_ready_line (i : nat) : string :=
  "ClickHouse not ready (attempt " +:+ pretty i +:+ "/" +:+ pretty maxAttempts
  +:+ "), retrying in " +:+ pretty delayMs +:+ "ms...".

(** [for (let i = 1; i <= maxAttempts; i++) { ... }], from the state
    [(i, healthy)].  [fuel] bounds the iterations; [maxAttempts] of it is
    enough ([gate_loop_fuel]). *)
Fixpoint gate_loop (fuel : nat) (i : nat) (healthy : bool) : M bool :=
  if (i <=? maxAttempts)%nat then
    match fuel with
    | O => ret healthy
    | S fuel' =>
        let* healthy := checkClickHouseHealth clickhouse in
        if healthy then
          console_log (healthy_line i);;
          ret healthy
        else
          (if (i <? maxAttempts)%nat then
             console_log (not_ready_line i);;
             sleep delayMs
           else ret tt);;
          gate_loop fuel' (S i) healthy
    end
  else ret healthy.

(** [let healthy = false;] and the loop from [i = 1]. *)
Definition startup_gate : M bool := gate_loop maxAttempts 1 false.

End Gate.

Definition unreachable_line (maxAttempts : nat) : string :=
  "ClickHouse not reachable after " +:+ pretty maxAttempts +:+ " attempts, exiting".

Section Main.
Context `{Host} `{McpSdk}.

Definition listening_line (config : Config) : string :=
  "MCP server listening on port " +:+ numberToString (mcpPort config).

Definition main (env : gmap string string) : M unit :=
  let* config := loadConfig env in
  let clickhouse := createClickHouseClient config in
  let maxAttempts := 30%nat in
  let delayMs := 2000 in
  let* healthy := startup_gate clickhouse maxAttempts delayMs in
  (if negb healthy then
     console_error (unreachable_line maxAttempts) None;;
     process_exit 1
   else ret tt);;
  let server := createMcpServer clickhouse in
  let* _ := startHttpServer server config in
  console_log (listening_line config).

(** [main().catch((err) => { console.error("Fatal error:", err); process.exit(1); })] *)
Definition program (env : gmap string string) : M unit :=
  try_catch (main env)
    (fun err => console_error "Fatal error:" (Some err);; process_exit 1).

End Main.

(** What [main] does once the gate has let it through: its outcome and the
    events it adds. *)
Definition listen_outcome `{Host} (config : Config) : Outcome unit * list Event :=
  match listenError (mcpPort config) with
  | None =>
      (Completed tt, [EvListen (mcpPort config); EvLog (listening_line config)])
  | Some err => (Thrown err, [EvListen (mcpPort config)])
  end.

(** The world a process starts in, at instant [t0]. *)
Definition boot (t0 : Z) : World := {| pings := 0; now := t0; trace := [] |}.

(** ** What a trace shows *)

Definition is_ping (e : Event) : bool :=
  match e with EvPing _ => true | _ => false end.

Definition is_listen (e : Event) : bool :=
  match e with EvListen _ => true | _ => false end.

(** The number of native pings in a trace. *)
Definition ping_count (tr : list Event) : nat := length (filter is_ping tr).

(** The durations slept, in order. *)
Fixpoint sleeps (tr : list Event) : list Z :=
  match tr with
  | [] => []
  | EvSleep ms :: rest => ms :: sleeps rest
  | _ :: rest => sleeps rest
  end.

Definition is_healthy_ping (e : Event) : bool :=
  match e with EvPing (Resolved true) => true | _ => false end.

(** Every listener in the trace is bound after a native ping that resolved
    with success; [seen] tells whether one came before the trace. *)
Fixpoint listen_guarded (seen : bool) (tr : list Event) : bool :=
  match tr with
  | [] => true
  | e :: rest =>
      (if is_listen e then seen else true)
      && listen_guarded (seen || is_healthy_ping e) rest
  end.

(** What the probe answers on a native outcome. *)
Definition probe_answer (client : ClickHouseClient) (n : nat) : bool :=
  match client_ping client n with
  | Resolved success => success
  | Rejected _ => false
  end.

(** The events of [k] failed attempts that are each followed by a sleep:
    attempts [i .. i+k-1], the first one being native ping [n]. *)
Fixpoint retry_events (client : ClickHouseClient) (maxAttempts : nat) (delayMs : Z)
    (n i k : nat) : list Event :=
  match k with
  | O => []
  | S k' =>
      EvPing (client_ping client n)
      :: EvLog (not_ready_line maxAttempts delayMs i)
      :: EvSleep delayMs
      :: retry_events client maxAttempts delayMs (S n) (S i) k'
  end.

(** ** A host for the examples

    The examples below run the program on one concrete host.  It is a
    JavaScript host on the inputs the examples give it and no further:
    [Number] on strings of decimal digits (the empty string is 0) and on
    text that is no number at all, the URL test on plain [http://host...]
    addresses and on text without a scheme, [String] on integers,
    [toISOString] on the instants of the years 1970 to 9999, and a network
    on which every port is free. *)
Module ExampleHost.

Fixpoint digits_value (s : string) (acc : Z) : option Z :=
  match s with
  | EmptyString => Some acc
  | String c rest =>
      let n := Z.of_N (N_of_ascii c) in
      if ((48 <=? n) && (n <=? 57))%Z
      then digits_value rest (10 * acc + (n - 48))%Z
      else None
  end.

Definition number (s : string) : JSNumber :=
  match digits_value s 0 with
  | Some z => JFinite z 1
  | None => JNaN
  end.

Definition is_url (s : string) : bool :=
  String.prefix "http://" s && (7 <? String.length s)%nat.

Definition number_to_string (n : JSNumber) : string :=
  match n with
  | JNaN => "NaN"
  | JInfinity negative => if negative then "-Infinity" else "Infinity"
  | JFinite num den => pretty (num / Z.pos den)%Z
  end.

(** [z] in decimal, padded with zeros to [width] digits. *)
Definition padded (width : nat) (z : Z) : string :=
  let s := pretty z in
  String.concat EmptyString (replicate (width - String.length s) "0") +:+ s.

Definition to_iso_string (t : Z) : string :=
  let days := t / 86400000 in
  let ms := t mod 86400000 in
  let z := days + 719468 in
  let era := z / 146097 in
  let doe := z - era * 146097 in
  let yoe := (doe - doe / 1460 + doe / 36524 - doe / 146096) / 365 in
  let doy := doe - (365 * yoe + yoe / 4 - yoe / 100) in
  let mp := (5 * doy + 2) / 153 in
  let d := doy - (153 * mp + 2) / 5 + 1 in
  let m := if mp <? 10 then mp + 3 else mp - 9 in
  let y := yoe + era * 400 + (if m <=? 2 then 1 else 0) in
  padded 4 y +:+ "-" +:+ padded 2 m +:+ "-" +:+ padded 2 d +:+ "T"
  +:+ padded 2 (ms / 3600000) +:+ ":" +:+ padded 2 (ms / 60000 mod 60) +:+ ":"
  +:+ padded 2 (ms / 1000 mod 60) +:+ "." +:+ padded 3 (ms mod 1000) +:+ "Z".

(** Node refuses to listen on a port outside 0 .. 65535; no port is taken. *)
Definition listen_error (port : JSNumber) : option JsError :=
  match port with
  | JFinite num den =>
      if (num mod Z.pos den =? 0)%Z && (0 <=? num / Z.pos den)%Z
         && (num / Z.pos den <? 65536)%Z
      then None
      else Some (Error "options.port should be >= 0 and < 65536")
  | _ => Some (Error "options.port should be >= 0 and < 65536")
  end.

(** The host whose store settles its [n]-th ping as [store n]. *)
Definition host (store : nat -> PingOutcome) : Host :=
  {| isUrl := is_url;
     Number := number;
     numberToString := number_to_string;
     toISOString := to_iso_string;
     storePing := fun _ => store;
     listenError := listen_error |}.

(** A protocol layer that answers every message with an empty object. *)
Definition sdk : McpSdk :=
  {| handleMessage := fun _ _ => ret "{}" |}.

(** The environment of the repository's own tests: only the secret set. *)
Definition env_secret : gmap string string :=
  {[ "MCP_API_KEY" := "test-key" ]}.

(** A store that rejects [k] pings and then is healthy. *)
Definition up_after (k : nat) (n : nat) : PingOutcome :=
  if (n <? k)%nat then Rejected (Error "Connection refused") else Resolved true.

(** A store that is reached and reports failure, always. *)
Definition always_down (n : nat) : PingOutcome := Resolved false.

(** A store that answers the first ping and then refuses connections. *)
Definition up_once (n : nat) : PingOutcome :=
  match n with
  | O => Resolved true
  | S _ => Rejected (Error "Connection refused")
  end.

(** The fixtures of tests/unit/auth.test.ts. *)
Definition test_config (port : Z) : Config :=
  mkConfig "http://localhost:8123" "test-secret-key" (number_of_Z port).

Definition test_server : McpServer := mkMcpServer "test" "0.0.1" [].

Definition post_mcp (authorization : option string) : Request :=
  {| req_method := "POST";
     req_path := "/mcp";
     req_headers :=
       match authorization with
       | None => {[ "content-type" := "application/json" ]}
       | Some value =>
           <[ "authorization" := value ]> {[ "content-type" := "application/json" ]}
       end;
     req_body := "{}" |}.

Definition get_health : Request :=
  {| req_method := "GET"; req_path := "/health";
     req_headers := ∅; req_body := EmptyString |}.

End ExampleHost.

(** ** Reading a JSON string back

    One character of the body of a JSON string, read back from the text
    that [json_escape] writes: a plain character, a two-character escape or
    a [\u00XY] escape.  It serves to show that the writer loses nothing. *)
Definition hex_value (c : ascii) : option N :=
  let n := N_of_ascii c in
  if ((48 <=? n) && (n <=? 57))%N then Some (n - 48)%N
  else if ((97 <=? n) && (n <=? 102))%N then Some (n - 87)%N
  else None.

Definition json_unescape_head (s : string) : option (ascii * string) :=
  match s with
  | EmptyString => None
  | String c rest =>
      if (N_of_ascii c =? 92)%N then
        match rest with
        | EmptyString => None
        | String e rest' =>
            let m := N_of_ascii e in
            if (m =? 34)%N then Some (e, rest')
            else if (m =? 92)%N then Some (e, rest')
            else if (m =? 98)%N then Some (ascii_of_N 8, rest')
            else if (m =? 116)%N then Some (ascii_of_N 9, rest')
            else if (m =? 110)%N then Some (ascii_of_N 10, rest')
            else if (m =? 102)%N then Some (ascii_of_N 12, rest')
            else if (m =? 114)%N then Some (ascii_of_N 13, rest')
            else if (m =? 117)%N then
              match rest' with
              | String z1 (String z2 (String h1 (String h2 rest''))) =>
                  if ((N_of_ascii z1 =? 48) && (N_of_ascii z2 =? 48))%N then
                    match hex_value h1, hex_value h2 with
                    | Some a, Some b => Some (ascii_of_N (16 * a + b), rest'')
                    | _, _ => None
                    end
                  else None
              | _ => None
              end
            else None
        end
      else if ((N_of_ascii c =? 34) || (N_of_ascii c <? 32))%N then None
      else Some (c, rest)
  end.

(** * Properties *)

(** ** The monad, step by step *)

Lemma world_eq p p' t t' tr tr' :
  p = p' -> t = t' -> tr = tr' -> mkWorld p t tr = mkWorld p' t' tr'.
Proof. by intros -> -> ->. Qed.

Lemma sleeps_app tr1 tr2 : sleeps (tr1 ++ tr2) = sleeps tr1 ++ sleeps tr2.
Proof.
  induction tr1 as [|e tr1 IH]; [done|].
  destruct e; simpl; by rewrite ?IH.
Qed.

Lemma ping_count_app tr1 tr2 :
  ping_count (tr1 ++ tr2) = (ping_count tr1 + ping_count tr2)%nat.
Proof. unfold ping_count. by rewrite filter_app, length_app. Qed.

(** One probe: one native ping, its outcome recorded, its answer returned. *)
Lemma checkClickHouseHealth_run client w :
  checkClickHouseHealth client w =
    (Completed (probe_answer client (pings w)),
     mkWorld (S (pings w)) (now w) (trace w ++ [EvPing (client_ping client (pings w))])).
Proof.
  unfold checkClickHouseHealth, try_catch, bind, native_ping, probe_answer, ret.
  by destruct (client_ping client (pings w)).
Qed.

Section GateFacts.
Variable clickhouse : ClickHouseClient.
Variable maxAttempts : nat.
Variable delayMs : Z.

Local Abbreviation loop := (gate_loop clickhouse maxAttempts delayMs).
Local Abbreviation retries := (retry_events clickhouse maxAttempts delayMs).

Lemma probe_answer_first (k : nat) w :
  (forall j, (j <= k)%nat -> probe_answer clickhouse (pings w + j) = false) ->
  probe_answer clickhouse (pings w) = false.
Proof.
  intros Hfalse. rewrite <- (Nat.add_0_r (pings w)). apply Hfalse; lia.
Qed.

Lemma gate_loop_S fuel i healthy :
  loop (S fuel) i healthy =
    if (i <=? maxAttempts)%nat then
      let* healthy := checkClickHouseHealth clickhouse in
      if healthy then
        console_log (healthy_line i);;
        ret healthy
      else
        (if (i <? maxAttempts)%nat then
           console_log (not_ready_line maxAttempts delayMs i);;
           sleep delayMs
         else ret tt);;
        loop fuel (S i) healthy
    else ret healthy.
Proof. reflexivity. Qed.

Lemma gate_loop_done fuel i healthy w :
  (maxAttempts < i)%nat -> loop fuel i healthy w = (Completed healthy, w).
Proof.
  intros Hi. destruct fuel; simpl;
    by destruct (Nat.leb_spec i maxAttempts); [lia|].
Qed.

(** The probe first answers [true] on the [k]-th attempt from here. *)
Lemma gate_loop_success k : forall fuel i healthy w,
  (i + k <= maxAttempts)%nat ->
  (k < fuel)%nat ->
  (forall j, (j < k)%nat -> probe_answer clickhouse (pings w + j) = false) ->
  probe_answer clickhouse (pings w + k) = true ->
  loop fuel i healthy w =
    (Completed true,
     mkWorld (pings w + k + 1) (now w + Z.of_nat k * delayMs)
       (trace w ++ retries (pings w) i k
          ++ [EvPing (client_ping clickhouse (pings w + k));
              EvLog (healthy_line (i + k))])).
Proof.
  induction k as [|k IH]; intros fuel i healthy w Hik Hfuel Hfalse Htrue.
  - destruct fuel as [|fuel]; [lia|].
    rewrite gate_loop_S.
    destruct (Nat.leb_spec i maxAttempts); [|lia].
    unfold bind. rewrite checkClickHouseHealth_run.
    rewrite Nat.add_0_r in Htrue. rewrite Htrue.
    unfold console_log, emit, ret; simpl.
    f_equal. apply world_eq; [lia|lia|].
    rewrite !Nat.add_0_r. by rewrite <- app_assoc.
  - destruct fuel as [|fuel]; [lia|].
    rewrite gate_loop_S.
    destruct (Nat.leb_spec i maxAttempts); [|lia].
    unfold bind at 1. rewrite checkClickHouseHealth_run.
    rewrite (probe_answer_first k) by (intros j Hj; apply Hfalse; lia).
    destruct (Nat.ltb_spec i maxAttempts); [|lia].
    unfold bind, console_log, emit, sleep; simpl.
    rewrite (IH fuel (S i) false); simpl; [ | lia | lia | | ].
    + f_equal. apply world_eq; [lia|lia|].
      rewrite <- !app_assoc. simpl.
      by replace (S (i + k)) with (i + S k)%nat by lia;
         replace (S (pings w + k)) with (pings w + S k)%nat by lia.
    + intros j Hj.
      replace (S (pings w + j)) with (pings w + S j)%nat by lia.
      apply Hfalse; lia.
    + by replace (S (pings w + k)) with (pings w + S k)%nat by lia.
Qed.

(** The probe answers [false] on every attempt that is left: [k] attempts
    followed by a sleep and the last one, attempt [maxAttempts]. *)
Lemma gate_loop_exhausted k : forall fuel i healthy w,
  (i + k = maxAttempts)%nat ->
  (k < fuel)%nat ->
  (forall j, (j <= k)%nat -> probe_answer clickhouse (pings w + j) = false) ->
  loop fuel i healthy w =
    (Completed false,
     mkWorld (pings w + k + 1) (now w + Z.of_nat k * delayMs)
       (trace w ++ retries (pings w) i k
          ++ [EvPing (client_ping clickhouse (pings w + k))])).
Proof.
  induction k as [|k IH]; intros fuel i healthy w Hik Hfuel Hfalse.
  - destruct fuel as [|fuel]; [lia|].
    rewrite gate_loop_S.
    destruct (Nat.leb_spec i maxAttempts); [|lia].
    unfold bind at 1. rewrite checkClickHouseHealth_run.
    rewrite (probe_answer_first 0) by done.
    destruct (Nat.ltb_spec i maxAttempts); [lia|].
    unfold bind, ret; simpl.
    rewrite gate_loop_done by (simpl; lia).
    f_equal. apply world_eq; [lia|lia|].
    by rewrite !Nat.add_0_r.
  - destruct fuel as [|fuel]; [lia|].
    rewrite gate_loop_S.
    destruct (Nat.leb_spec i maxAttempts); [|lia].
    unfold bind at 1. rewrite checkClickHouseHealth_run.
    rewrite (probe_answer_first (S k)) by done.
    destruct (Nat.ltb_spec i maxAttempts); [|lia].
    unfold bind, console_log, emit, sleep; simpl.
    rewrite (IH fuel (S i) false); simpl; [ | lia | lia | ].
    + f_equal. apply world_eq; [lia|lia|].
      rewrite <- !app_assoc. simpl.
      by replace (S (pings w + k)) with (pings w + S k)%nat by lia.
    + intros j Hj.
      replace (S (pings w + j)) with (pings w + S j)%nat by lia.
      apply Hfalse; lia.
Qed.

Lemma sleeps_retries n i k : sleeps (retries n i k) = replicate k delayMs.
Proof.
  revert n i; induction k as [|k IH]; intros n i; simpl; [done|].
  by rewrite IH.
Qed.

Lemma ping_count_retries n i k : ping_count (retries n i k) = k.
Proof.
  revert n i; induction k as [|k IH]; intros n i; [done|].
  change (ping_count (retries n i (S k)))
    with (S (ping_count (retries (S n) (S i) k))).
  by rewrite IH.
Qed.

End GateFacts.

Section GateFuel.
Variable clickhouse : ClickHouseClient.
Variable maxAttempts : nat.
Variable delayMs : Z.

(** The fuel of [startup_gate] never runs out: once it covers the
    attempts that are left, more of it changes nothing. *)
Lemma gate_loop_fuel fuel : forall i healthy w,
  (maxAttempts + 1 - i <= fuel)%nat ->
  gate_loop clickhouse maxAttempts delayMs (S fuel) i healthy w =
  gate_loop clickhouse maxAttempts delayMs fuel i healthy w.
Proof.
  induction fuel as [|fuel IH]; intros i healthy w Hfuel.
  - by rewrite !gate_loop_done by lia.
  - rewrite (gate_loop_S _ _ _ (S fuel)), (gate_loop_S _ _ _ fuel).
    destruct (Nat.leb_spec i maxAttempts); [|done].
    unfold bind. rewrite checkClickHouseHealth_run.
    destruct (probe_answer clickhouse (pings w)); [done|].
    destruct (i <? maxAttempts)%nat;
      unfold console_log, emit, sleep, ret; cbn -[gate_loop]; apply IH; lia.
Qed.

(** Among the next [n] answers of the probe there is a first [true], or
    there is none. *)
Lemma first_true_or_none (start n : nat) :
  (exists k, (k < n)%nat /\
     (forall j, (j < k)%nat -> probe_answer clickhouse (start + j) = false) /\
     probe_answer clickhouse (start + k) = true)
  \/ (forall j, (j < n)%nat -> probe_answer clickhouse (start + j) = false).
Proof.
  induction n as [|n [(k & Hk & Hfalse & Htrue)|Hnone]].
  - right. intros j Hj. lia.
  - left. exists k. split; [lia|done].
  - destruct (probe_answer clickhouse (start + n)) eqn:Hn.
    + left. exists n. split; [lia|done].
    + right. intros j Hj.
      destruct (decide (j = n)) as [->|]; [done|]. apply Hnone. lia.
Qed.

End GateFuel.

(** ** [loadConfig] and [main], case by case *)

Section MainFacts.
Context `{Host} `{McpSdk}.

Lemma loadConfig_run env w :
  loadConfig env w =
    match configSchema_safeParse (config_input env) with
    | Valid config => (Completed config, w)
    | Invalid issues => (Thrown (ZodError issues), w)
    end.
Proof.
  unfold loadConfig, configSchema_parse.
  by destruct (configSchema_safeParse (config_input env)).
Qed.

(** A rejected configuration: [main] throws before anything happens. *)
Lemma main_config_invalid env issues w :
  configSchema_safeParse (config_input env) = Invalid issues ->
  main env w = (Thrown (ZodError issues), w).
Proof.
  intros Hcfg. unfold main. unfold bind at 1.
  by rewrite loadConfig_run, Hcfg.
Qed.

(** The probe first answers [true] on attempt [K]: [main] goes on to the
    listener. *)
Lemma main_healthy env config w K :
  configSchema_safeParse (config_input env) = Valid config ->
  (1 <= K <= 30)%nat ->
  (forall j, (j < K - 1)%nat ->
     probe_answer (createClickHouseClient config) (pings w + j) = false) ->
  probe_answer (createClickHouseClient config) (pings w + (K - 1)) = true ->
  main env w =
    ((listen_outcome config).1,
     mkWorld (pings w + K) (now w + (Z.of_nat K - 1) * 2000)
       (trace w
          ++ retry_events (createClickHouseClient config) 30 2000 (pings w) 1 (K - 1)
          ++ [EvPing (Resolved true); EvLog (healthy_line K)]
          ++ (listen_outcome config).2)).
Proof.
  intros Hcfg HK Hfalse Htrue.
  unfold main. unfold bind at 1. rewrite loadConfig_run, Hcfg.
  unfold bind at 1. unfold startup_gate.
  rewrite (gate_loop_success _ _ _ (K - 1)); [ | lia | lia | done | done ].
  assert (client_ping (createClickHouseClient config) (pings w + (K - 1))
          = Resolved true) as ->.
  { unfold probe_answer in Htrue.
    destruct (client_ping _ _) as [[]|]; done. }
  unfold listen_outcome, bind, startHttpServer, console_log, emit, throw, ret.
  cbn [negb pings now trace].
  destruct (listenError (mcpPort config)) as [err|];
    unfold bind; cbn [fst snd pings now trace];
    (f_equal; apply world_eq; [lia|lia|]);
    rewrite <- !app_assoc; cbn [app];
    by replace (1 + (K - 1))%nat with K by lia.
Qed.

(** The probe answers [false] thirty times: [main] exits with status 1. *)
Lemma main_unreachable env config w :
  configSchema_safeParse (config_input env) = Valid config ->
  (forall j, (j < 30)%nat ->
     probe_answer (createClickHouseClient config) (pings w + j) = false) ->
  main env w =
    (Exited 1,
     mkWorld (pings w + 30) (now w + 29 * 2000)
       (trace w
          ++ retry_events (createClickHouseClient config) 30 2000 (pings w) 1 29
          ++ [EvPing (client_ping (createClickHouseClient config) (pings w + 29));
              EvError (unreachable_line 30) None])).
Proof.
  intros Hcfg Hfalse.
  unfold main. unfold bind at 1. rewrite loadConfig_run, Hcfg.
  unfold bind at 1. unfold startup_gate.
  rewrite (gate_loop_exhausted _ _ _ 29); [ | lia | lia | ].
  - unfold bind, console_error, process_exit, emit; simpl.
    f_equal. apply world_eq; simpl; [lia|lia|].
    by rewrite <- !app_assoc.
  - intros j Hj. apply Hfalse. lia.
Qed.

End MainFacts.

(** ** Traces in which the listener waits for a healthy ping *)

Lemma listen_guarded_seen tr : forall seen,
  listen_guarded seen tr = true -> listen_guarded true tr = true.
Proof.
  induction tr as [|e tr IH]; intros seen; simpl; [done|].
  rewrite !andb_true_iff. intros [_ Hrest]. split.
  - by destruct (is_listen e).
  - destruct seen; simpl in Hrest; [done|]. by apply IH in Hrest.
Qed.

Lemma listen_guarded_split tr : forall seen pre port post,
  listen_guarded seen tr = true ->
  tr = pre ++ EvListen port :: post ->
  seen = true \/ EvPing (Resolved true) ∈ pre.
Proof.
  induction tr as [|e tr IH]; intros seen pre port post Hg Htr.
  - by destruct pre.
  - simpl in Hg. apply andb_true_iff in Hg as [Hhere Hrest].
    destruct pre as [|e' pre]; simpl in Htr; injection Htr as -> ->.
    + by left.
    + destruct (IH _ _ _ _ Hrest eq_refl) as [Hseen|Hin].
      * apply orb_true_iff in Hseen as [?|Hping]; [by left|].
        right. by destruct e' as [[[]|]| | | | |]; try done; left.
      * right. apply elem_of_cons; by right.
Qed.

Lemma listen_guarded_app tr1 tr2 seen :
  listen_guarded seen tr1 = true ->
  (forall seen', listen_guarded seen' tr1 = true ->
     listen_guarded (seen || existsb is_healthy_ping tr1) tr2 = true) ->
  listen_guarded seen (tr1 ++ tr2) = true.
Proof.
  revert seen. induction tr1 as [|e tr1 IH]; intros seen Hg Hk; simpl in *.
  - rewrite orb_false_r in Hk. by apply (Hk seen).
  - apply andb_true_iff in Hg as [Hhere Hrest].
    apply andb_true_iff. split; [done|].
    apply IH; [done|]. intros _ _.
    rewrite <- orb_assoc. apply (Hk seen). by apply andb_true_iff.
Qed.

Lemma listen_guarded_retries client maxAttempts delayMs k : forall n i seen,
  listen_guarded seen (retry_events client maxAttempts delayMs n i k) = true.
Proof.
  induction k as [|k IH]; intros n i seen; simpl; [done|]. apply IH.
Qed.

Lemma not_listen_retries client maxAttempts delayMs k port : forall n i,
  EvListen port ∉ retry_events client maxAttempts delayMs n i k.
Proof.
  induction k as [|k IH]; intros n i; simpl.
  - apply not_elem_of_nil.
  - rewrite !not_elem_of_cons. by repeat split.
Qed.

Section MainCases.
Context `{Host} `{McpSdk}.

Lemma loadConfig_completed env config w w' :
  loadConfig env w = (Completed config, w') ->
  configSchema_safeParse (config_input env) = Valid config.
Proof.
  rewrite loadConfig_run.
  destruct (configSchema_safeParse (config_input env)); [|done].
  by intros [= ->].
Qed.

(** Every run of [main] is one of three. *)
Lemma main_cases env w :
  (exists issues,
      configSchema_safeParse (config_input env) = Invalid issues /\
      main env w = (Thrown (ZodError issues), w))
  \/ (exists config K,
      configSchema_safeParse (config_input env) = Valid config /\
      (1 <= K <= 30)%nat /\
      main env w =
        ((listen_outcome config).1,
         mkWorld (pings w + K) (now w + (Z.of_nat K - 1) * 2000)
           (trace w
              ++ retry_events (createClickHouseClient config) 30 2000 (pings w) 1 (K - 1)
              ++ [EvPing (Resolved true); EvLog (healthy_line K)]
              ++ (listen_outcome config).2)))
  \/ (exists config,
      configSchema_safeParse (config_input env) = Valid config /\
      main env w =
        (Exited 1,
         mkWorld (pings w + 30) (now w + 29 * 2000)
           (trace w
              ++ retry_events (createClickHouseClient config) 30 2000 (pings w) 1 29
              ++ [EvPing (client_ping (createClickHouseClient config) (pings w + 29));
                  EvError (unreachable_line 30) None]))).
Proof.
  destruct (configSchema_safeParse (config_input env)) as [config|issues] eqn:Hcfg.
  - right.
    destruct (first_true_or_none (createClickHouseClient config) (pings w) 30)
      as [(k & Hk & Hfalse & Htrue)|Hnone].
    + left. exists config, (S k). split; [done|]. split; [lia|].
      apply main_healthy; [done|lia| |].
      * intros j Hj. apply Hfalse. lia.
      * by replace (S k - 1)%nat with k by lia.
    + right. exists config. split; [done|]. by apply main_unreachable.
  - left. exists issues. split; [done|]. by apply main_config_invalid.
Qed.

Lemma program_of_main env w :
  program env w =
    match main env w with
    | (Thrown err, w') =>
        (Exited 1, mkWorld (pings w') (now w')
                     (trace w' ++ [EvError "Fatal error:" (Some err)]))
    | r => r
    end.
Proof.
  unfold program, try_catch.
  by destruct (main env w) as [[[]|err|code] w'].
Qed.

End MainCases.

(** ** The health probe and the ping tool *)

(** C3: [checkClickHouseHealth] never throws and never exits: it completes
    with a boolean after one native ping.  The boolean is [false] when the
    native ping rejects, for any reason, and when it resolves without
    success; it is [true] exactly when the native ping resolves with
    success. *)
Theorem checkClickHouseHealth_never_throws
    (client : ClickHouseClient) (w : World) :
  exists (b : bool) (w' : World),
    checkClickHouseHealth client w = (Completed b, w') /\
    pings w' = S (pings w) /\
    (forall reason, client_ping client (pings w) = Rejected reason -> b = false) /\
    (client_ping client (pings w) = Resolved false -> b = false) /\
    (b = true <-> client_ping client (pings w) = Resolved true).
Proof.
  eexists _, _. split; [apply checkClickHouseHealth_run|].
  split; [done|]. unfold probe_answer.
  destruct (client_ping client (pings w)) as [[]|reason]; naive_solver.
Qed.

(** C4: [ping] always completes with a [PingResult], whatever the native
    ping did, and in it [status] is ["ok"] exactly when [clickhouse] is
    [true]: both come from the one answer of the probe. *)
Theorem ping_status_ok_iff_clickhouse `{Host}
    (client : ClickHouseClient) (w : World) :
  exists (r : PingResult) (w' : World),
    ping client w = (Completed r, w') /\
    (status r = ok <-> clickhouse r = true) /\
    (status r = error <-> clickhouse r = false) /\
    clickhouse r = probe_answer client (pings w) /\
    timestamp r = toISOString (now w) /\
    match client_ping client (pings w) with
    | Resolved true => status r = ok /\ clickhouse r = true
    | Resolved false => status r = error /\ clickhouse r = false
    | Rejected _ => status r = error /\ clickhouse r = false
    end.
Proof.
  unfold ping, bind. rewrite checkClickHouseHealth_run.
  unfold date_now, ret; simpl. eexists _, _. split; [reflexivity|]. simpl.
  unfold probe_answer.
  destruct (client_ping client (pings w)) as [[]|reason]; naive_solver.
Qed.

(** ** The gate at every number of attempts and every delay *)

Section GateAtLarge.
Variable clickhouse : ClickHouseClient.
Variable maxAttempts : nat.
Variable delayMs : Z.

Lemma startup_gate_first_true (w : World) (K : nat) :
  (1 <= K <= maxAttempts)%nat ->
  (forall j, (j < K - 1)%nat -> probe_answer clickhouse (pings w + j) = false) ->
  probe_answer clickhouse (pings w + (K - 1)) = true ->
  startup_gate clickhouse maxAttempts delayMs w =
    (Completed true,
     mkWorld (pings w + K) (now w + (Z.of_nat K - 1) * delayMs)
       (trace w
          ++ retry_events clickhouse maxAttempts delayMs (pings w) 1 (K - 1)
          ++ [EvPing (client_ping clickhouse (pings w + (K - 1)));
              EvLog (healthy_line K)])).
Proof.
  intros HK Hfalse Htrue. unfold startup_gate.
  rewrite (gate_loop_success _ _ _ (K - 1)); [ | lia | lia | done | done ].
  replace (Z.of_nat (K - 1)) with (Z.of_nat K - 1) by lia.
  f_equal. apply world_eq; [lia|done|].
  by replace (1 + (K - 1))%nat with K by lia.
Qed.

Lemma startup_gate_all_false (w : World) :
  (1 <= maxAttempts)%nat ->
  (forall j, (j < maxAttempts)%nat -> probe_answer clickhouse (pings w + j) = false) ->
  startup_gate clickhouse maxAttempts delayMs w =
    (Completed false,
     mkWorld (pings w + maxAttempts) (now w + (Z.of_nat maxAttempts - 1) * delayMs)
       (trace w
          ++ retry_events clickhouse maxAttempts delayMs (pings w) 1 (maxAttempts - 1)
          ++ [EvPing (client_ping clickhouse (pings w + (maxAttempts - 1)))])).
Proof.
  intros Hmax Hfalse. unfold startup_gate.
  rewrite (gate_loop_exhausted _ _ _ (maxAttempts - 1)); [ | lia | lia | ].
  - replace (Z.of_nat (maxAttempts - 1)) with (Z.of_nat maxAttempts - 1) by lia.
    f_equal. apply world_eq; [lia|done|done].
  - intros j Hj. apply Hfalse. lia.
Qed.

End GateAtLarge.

(** The store answers false, false, true; five attempts, 10 ms apart: the
    gate succeeds on the third probe, having slept twice. *)
Example startup_gate_false_false_true :
  startup_gate (mkClient "http://localhost:8123"
                  (fun n => Resolved (2 <=? n)%nat)) 5 10 (boot 0) =
    (Completed true,
     mkWorld 3 20
       [EvPing (Resolved false);
        EvLog "ClickHouse not ready (attempt 1/5), retrying in 10ms...";
        EvSleep 10;
        EvPing (Resolved false);
        EvLog "ClickHouse not ready (attempt 2/5), retrying in 10ms...";
        EvSleep 10;
        EvPing (Resolved true);
        EvLog "ClickHouse healthy after 3 attempt(s)"]).
Proof. by vm_compute. Qed.

(** The store is down; three attempts, 5 ms apart: three probes, two sleeps. *)
Example startup_gate_three_attempts_down :
  startup_gate (mkClient "http://localhost:8123" ExampleHost.always_down) 3 5 (boot 0) =
    (Completed false,
     mkWorld 3 10
       [EvPing (Resolved false);
        EvLog "ClickHouse not ready (attempt 1/3), retrying in 5ms...";
        EvSleep 5;
        EvPing (Resolved false);
        EvLog "ClickHouse not ready (attempt 2/3), retrying in 5ms...";
        EvSleep 5;
        EvPing (Resolved false)]).
Proof. by vm_compute. Qed.

(** ** The startup gate in [main] *)

Section StartupGate.
Context `{Host} `{McpSdk}.

Lemma listen_outcome_quiet config :
  ping_count (listen_outcome config).2 = 0%nat /\
  sleeps (listen_outcome config).2 = [] /\
  (listen_outcome config).1 <> Exited 1.
Proof. unfold listen_outcome. by destruct (listenError (mcpPort config)). Qed.

(** C1: when the probe answers [false] on attempts 1 to K-1 and [true] on
    attempt K, for some K between 1 and the 30 attempts of [main], the
    gate of [main] returns [true] after exactly K probes.  Its trace is K-1
    rounds of ping, progress line and a sleep of 2000 ms, then the K-th
    ping and the success line: K-1 sleeps, each between two attempts, none
    after the successful one, and no attempt after it.  [main] then asks
    for the listener and neither pings nor sleeps again. *)
Theorem startup_gate_succeeds_on_attempt_K
    (env : gmap string string) (config : Config) (t0 : Z) (K : nat) :
  loadConfig env (boot t0) = (Completed config, boot t0) ->
  (1 <= K <= 30)%nat ->
  (forall a, (1 <= a < K)%nat ->
     probe_answer (createClickHouseClient config) (a - 1) = false) ->
  probe_answer (createClickHouseClient config) (K - 1) = true ->
  let client := createClickHouseClient config in
  let gate_trace :=
    retry_events client 30 2000 0 1 (K - 1)
    ++ [EvPing (Resolved true); EvLog (healthy_line K)] in
  let elapsed := (Z.of_nat K - 1) * 2000 in
  startup_gate client 30 2000 (boot t0)
    = (Completed true, mkWorld K (t0 + elapsed) gate_trace) /\
  main env (boot t0)
    = ((listen_outcome config).1,
       mkWorld K (t0 + elapsed) (gate_trace ++ (listen_outcome config).2)) /\
  ping_count gate_trace = K /\
  sleeps gate_trace = replicate (K - 1) 2000 /\
  ping_count (listen_outcome config).2 = 0%nat /\
  sleeps (listen_outcome config).2 = [].
Proof.
  intros Hcfg HK Hfalse Htrue client gate_trace elapsed.
  apply loadConfig_completed in Hcfg.
  assert (Hfalse' : forall j, (j < K - 1)%nat -> probe_answer client (0 + j) = false).
  { intros j Hj. simpl. replace j with (S j - 1)%nat by lia. apply Hfalse. lia. }
  assert (Hping : client_ping client (K - 1) = Resolved true).
  { unfold probe_answer in Htrue. by destruct (client_ping _ _) as [[]|]. }
  split; [|split; [|split; [|split]]].
  - rewrite (startup_gate_first_true client 30 2000 (boot t0) K HK Hfalse' Htrue).
    cbn [pings now trace boot Nat.add]. by rewrite app_nil_l, Hping.
  - rewrite (main_healthy env config (boot t0) K Hcfg HK Hfalse' Htrue).
    cbn [pings now trace boot]. by rewrite app_nil_l, app_assoc.
  - unfold gate_trace. rewrite ping_count_app, ping_count_retries.
    change (ping_count _) with 1%nat. lia.
  - unfold gate_trace. rewrite sleeps_app, sleeps_retries. apply app_nil_r.
  - split; apply listen_outcome_quiet.
Qed.

(** C2: when the probe answers [false] every time, the gate makes exactly
    30 probes, sleeps 2000 ms after each of the first 29 and not after the
    last, prints the failure line that names the 30 attempts, and the
    process exits with status 1. *)
Theorem startup_gate_exhausted_exits
    (env : gmap string string) (config : Config) (t0 : Z) :
  loadConfig env (boot t0) = (Completed config, boot t0) ->
  (forall n, probe_answer (createClickHouseClient config) n = false) ->
  exists w' : World,
    program env (boot t0) = (Exited 1, w') /\
    pings w' = 30%nat /\
    ping_count (trace w') = 30%nat /\
    sleeps (trace w') = replicate 29 2000 /\
    trace w' =
      retry_events (createClickHouseClient config) 30 2000 0 1 29
      ++ [EvPing (client_ping (createClickHouseClient config) 29);
          EvError "ClickHouse not reachable after 30 attempts, exiting" None].
Proof.
  intros Hcfg Hfalse. apply loadConfig_completed in Hcfg.
  eexists. split.
  - rewrite program_of_main.
    by rewrite (main_unreachable env config (boot t0)).
  - cbn [pings now trace boot]. rewrite app_nil_l.
    split; [done|]. split; [by rewrite ping_count_app, ping_count_retries|].
    split; [|done].
    by rewrite sleeps_app, sleeps_retries.
Qed.

(** C8: in every run of the program [startHttpServer] is called only after
    a native ping resolved with success, that is after a probe returned
    [true]; the run either completes, listening, or exits with status 1.  A
    run in which no probe returned [true] exits without having asked for a
    listener, and so does a run whose configuration is rejected, which
    never pings the store either. *)
Theorem listener_only_after_healthy_probe
    (env : gmap string string) (t0 : Z) :
  let run := program env (boot t0) in
  (forall pre port post,
      trace run.2 = pre ++ EvListen port :: post ->
      EvPing (Resolved true) ∈ pre) /\
  (run.1 = Completed tt \/ run.1 = Exited 1) /\
  (EvPing (Resolved true) ∉ trace run.2 ->
      run.1 = Exited 1 /\ forall port, EvListen port ∉ trace run.2) /\
  (forall issues,
      configSchema_safeParse (config_input env) = Invalid issues ->
      run = (Exited 1, mkWorld 0 t0 [EvError "Fatal error:" (Some (ZodError issues))])).
Proof.
  cbv zeta. rewrite program_of_main.
  destruct (main_cases env (boot t0))
    as [(issues & Hcfg & ->)|[(config & K & Hcfg & HK & ->)|(config & Hcfg & ->)]].
  - cbn [fst snd pings now trace boot]; rewrite ?app_nil_l.
    split; [|split; [by right|split]].
    + intros [|e [|e' pre]] port post Heq; done.
    + intros _. split; [done|].
      intros port Hin. by apply list_elem_of_singleton in Hin.
    + intros issues' Hcfg'. congruence.
  - assert (Hseen : forall tail,
        EvPing (Resolved true)
          ∈ retry_events (createClickHouseClient config) 30 2000 0 1 (K - 1)
            ++ [EvPing (Resolved true); EvLog (healthy_line K)] ++ tail).
    { intros tail. rewrite !elem_of_app, elem_of_cons. auto. }
    assert (Hguard : forall tail,
        listen_guarded true tail = true ->
        listen_guarded false
          (retry_events (createClickHouseClient config) 30 2000 0 1 (K - 1)
             ++ [EvPing (Resolved true); EvLog (healthy_line K)] ++ tail) = true).
    { intros tail Htail.
      apply listen_guarded_app; [apply listen_guarded_retries|].
      intros _ _. cbn [app listen_guarded is_listen is_healthy_ping].
      by rewrite !orb_true_r. }
    unfold listen_outcome.
    destruct (listenError (mcpPort config)) as [err|];
      cbn [fst snd pings now trace boot]; rewrite ?app_nil_l, <- ?app_assoc.
    + split; [|split; [by right|split]].
      * intros pre port post Heq.
        by refine (or_ind _ id (listen_guarded_split _ false pre port post (Hguard _ _) Heq)).
      * intros Hnot. destruct Hnot. apply Hseen.
      * intros issues' Hcfg'. congruence.
    + split; [|split; [by left|split]].
      * intros pre port post Heq.
        by refine (or_ind _ id (listen_guarded_split _ false pre port post (Hguard _ _) Heq)).
      * intros Hnot. destruct Hnot. apply Hseen.
      * intros issues' Hcfg'. congruence.
  - cbn [fst snd pings now trace boot]; rewrite ?app_nil_l.
    split; [|split; [by right|split]].
    + intros pre port post Heq.
      refine (or_ind _ id (listen_guarded_split _ false pre port post _ Heq)); [done|].
      apply listen_guarded_app; [apply listen_guarded_retries|].
      intros _ _. done.
    + intros _. split; [done|].
      intros port. rewrite elem_of_app, !elem_of_cons.
      intros [Hin|[?|[?|Hin]]]; try done.
      * by apply not_listen_retries in Hin.
      * by apply elem_of_nil in Hin.
    + intros issues' Hcfg'. congruence.
Qed.

(** A run of [main] that exits made the 30 probes and the 29 sleeps. *)
Lemma retry_policy_is_fixed_runs (env : gmap string string) (t0 : Z) :
  (main env (boot t0)).1 = Exited 1 ->
  ping_count (trace (main env (boot t0)).2) = 30%nat /\
  sleeps (trace (main env (boot t0)).2) = replicate 29 2000.
Proof.
  destruct (main_cases env (boot t0))
    as [(issues & Hcfg & ->)|[(config & K & Hcfg & HK & ->)|(config & Hcfg & ->)]];
    cbn [fst snd pings now trace boot]; rewrite ?app_nil_l; [done| |].
  - intros Hexit. by apply listen_outcome_quiet in Hexit.
  - intros _. by rewrite ping_count_app, ping_count_retries, sleeps_app, sleeps_retries.
Qed.

(** C9, as amended: the retry policy of [main] is 30 attempts 2000 ms
    apart, whatever the environment holds: no run makes more than 30
    probes, every sleep lasts 2000 ms, and there are at most 29 of them, so
    a run sleeps 58 s at most.  A run in which the gate gives up made
    exactly the 30 probes and the 29 sleeps. *)
Theorem retry_policy_is_fixed (env : gmap string string) (t0 : Z) :
  let run := main env (boot t0) in
  (ping_count (trace run.2) <= 30)%nat /\
  Forall (fun ms => ms = 2000) (sleeps (trace run.2)) /\
  (length (sleeps (trace run.2)) <= 29)%nat /\
  now run.2 - t0 <= 29 * 2000 /\
  (run.1 = Exited 1 ->
     ping_count (trace run.2) = 30%nat /\
     sleeps (trace run.2) = replicate 29 2000 /\
     now run.2 - t0 = 58000).
Proof.
  cbv zeta.
  destruct (main_cases env (boot t0))
    as [(issues & Hcfg & ->)|[(config & K & Hcfg & HK & ->)|(config & Hcfg & ->)]];
    cbn [fst snd pings now trace boot]; rewrite ?app_nil_l.
  - change (ping_count []) with 0%nat.
    split; [|split; [|split; [|split]]]; try done; simpl; lia.
  - destruct (listen_outcome_quiet config) as (Hp & Hs & Hexit).
    rewrite !ping_count_app, ping_count_retries, !sleeps_app, sleeps_retries, Hp, Hs.
    change (ping_count _) with 1%nat. cbn [sleeps].
    rewrite !app_nil_r, length_replicate.
    split; [|split; [|split; [|split]]]; try done; try lia.
    by apply Forall_replicate.
  - rewrite ping_count_app, ping_count_retries, sleeps_app, sleeps_retries.
    change (ping_count _) with 1%nat. cbn [sleeps]. rewrite app_nil_r, length_replicate.
    split; [|split; [|split; [|split]]]; try done; try lia.
    + by apply Forall_replicate.
    + intros _. split; [lia|]. split; [done|lia].
Qed.

End StartupGate.

(** C1 on the example host: the store refuses two connections and is then
    healthy, and the gate succeeds on the third attempt. *)
Lemma startup_gate_succeeds_on_attempt_3 :
  let host := ExampleHost.host (ExampleHost.up_after 2) in
  let config := mkConfig "http://localhost:8123" "test-key" (number_of_Z 3001) in
  let client := @createClickHouseClient host config in
  let gate_trace :=
    retry_events client 30 2000 0 1 (3 - 1)
    ++ [EvPing (Resolved true); EvLog (healthy_line 3)] in
  let elapsed := (Z.of_nat 3 - 1) * 2000 in
  startup_gate client 30 2000 (boot 0)
    = (Completed true, mkWorld 3 (0 + elapsed) gate_trace) /\
  @main host ExampleHost.sdk ExampleHost.env_secret (boot 0)
    = ((@listen_outcome host config).1,
       mkWorld 3 (0 + elapsed) (gate_trace ++ (@listen_outcome host config).2)) /\
  ping_count gate_trace = 3%nat /\
  sleeps gate_trace = replicate (3 - 1) 2000 /\
  ping_count (@listen_outcome host config).2 = 0%nat /\
  sleeps (@listen_outcome host config).2 = [].
Proof.
  intros host config.
  apply (@startup_gate_succeeds_on_attempt_K host ExampleHost.sdk
           ExampleHost.env_secret config 0 3).
  - vm_compute. reflexivity.
  - lia.
  - intros a Ha. assert (a = 1 \/ a = 2)%nat as [-> | ->] by lia; reflexivity.
  - reflexivity.
Defined.

(** C2 on the example host: the store answers and reports failure, always. *)
Lemma startup_gate_exhausted_on_down_store :
  let host := ExampleHost.host ExampleHost.always_down in
  let config := mkConfig "http://localhost:8123" "test-key" (number_of_Z 3001) in
  exists w' : World,
    @program host ExampleHost.sdk ExampleHost.env_secret (boot 0) = (Exited 1, w') /\
    pings w' = 30%nat /\
    ping_count (trace w') = 30%nat /\
    sleeps (trace w') = replicate 29 2000 /\
    trace w' =
      retry_events (@createClickHouseClient host config) 30 2000 0 1 29
      ++ [EvPing (client_ping (@createClickHouseClient host config) 29);
          EvError "ClickHouse not reachable after 30 attempts, exiting" None].
Proof.
  intros host config.
  apply (@startup_gate_exhausted_exits host ExampleHost.sdk
           ExampleHost.env_secret config 0).
  - vm_compute. reflexivity.
  - intros n. reflexivity.
Defined.

(** C9 as it was stated does not hold.  On a store that is always down the
    run with only the secret set makes its 30 attempts and has slept 58 s,
    not 60 s, when it gives up; and no two environments that pass
    validation lead to different numbers of attempts or different delays. *)
Lemma retry_policy_not_configurable :
  let run := fun env =>
    @main (ExampleHost.host ExampleHost.always_down) ExampleHost.sdk env (boot 0) in
  ((run ExampleHost.env_secret).1 = Exited 1 /\
   ping_count (trace (run ExampleHost.env_secret).2) = 30%nat /\
   now (run ExampleHost.env_secret).2 = 58000 /\
   now (run ExampleHost.env_secret).2 <> 60000) /\
  ~ (exists env env' : gmap string string,
       (run env).1 = Exited 1 /\ (run env').1 = Exited 1 /\
       (ping_count (trace (run env).2) <> ping_count (trace (run env').2) \/
        sleeps (trace (run env).2) <> sleeps (trace (run env').2))).
Proof.
  cbv zeta beta. split.
  - split; [by vm_compute|]. split; [by vm_compute|]. split; [by vm_compute|].
    vm_compute. discriminate.
  - intros (env & env' & Hexit & Hexit' & Hdiff).
    pose proof (@retry_policy_is_fixed_runs
                  (ExampleHost.host ExampleHost.always_down) ExampleHost.sdk env 0) as He.
    pose proof (@retry_policy_is_fixed_runs
                  (ExampleHost.host ExampleHost.always_down) ExampleHost.sdk env' 0) as He'.
    destruct (He Hexit) as (Hp & Hs), (He' Hexit') as (Hp' & Hs').
    destruct Hdiff as [Hd|Hd]; apply Hd; congruence.
Qed.

(** ** Configuration *)

Section ConfigFacts.
Context `{Host}.

Lemma length_lt_1 (s : string) : (String.length s <? 1)%nat = true <-> s = "".
Proof. destruct s; simpl; [done|]. split; [|done]. by destruct (String.length s). Qed.

Lemma clickhouseUrl_field input :
  clickhouseUrl_schema input =
    match input with
    | None => Valid default_clickhouseUrl
    | Some s =>
        if isUrl s then Valid s else Invalid [mkIssue [] invalid_string None]
    end.
Proof.
  destruct input as [s|]; [|done].
  unfold clickhouseUrl_schema, z_default, z_string, run_checks, url_check; simpl.
  by destruct (isUrl s).
Qed.

Lemma mcpApiKey_field input :
  mcpApiKey_schema input =
    match input with
    | None => Invalid [mkIssue [] invalid_type None]
    | Some EmptyString =>
        Invalid [mkIssue [] too_small (Some "MCP_API_KEY is required")]
    | Some s => Valid s
    end.
Proof. by destruct input as [[|c s]|]. Qed.

Lemma mcpPort_field_valid input n :
  mcpPort_schema input = Valid n <->
    match input with
    | None => n = default_mcpPort
    | Some s => n = Number s /\ isInteger n = true /\ gt_zero n = true
    end.
Proof.
  destruct input as [s|]; [|split; [by intros [= <-]|by intros ->]].
  unfold mcpPort_schema, z_default, z_coerce_number, run_checks,
    int_check, positive_check.
  cbn -[isNaN isInteger gt_zero].
  destruct (isNaN (Number s)) eqn:Hnan.
  - split; [done|]. intros (-> & Hint & _). by destruct (Number s).
  - destruct (isInteger (Number s)) eqn:Hint, (gt_zero (Number s)) eqn:Hpos;
      cbn -[isNaN isInteger gt_zero].
    + split; [by intros [= <-]|by intros (-> & _)].
    + split; [done|]. intros (-> & _ & ?). congruence.
    + split; [done|]. intros (-> & ? & _). congruence.
    + split; [done|]. intros (-> & ? & _). congruence.
Qed.

(** An input that fails in some field fails as a whole, with an issue. *)
Lemma safeParse_cases input :
  match configSchema_safeParse input with
  | Valid config =>
      clickhouseUrl_schema (in_clickhouseUrl input) = Valid (clickhouseUrl config) /\
      mcpApiKey_schema (in_mcpApiKey input) = Valid (mcpApiKey config) /\
      mcpPort_schema (in_mcpPort input) = Valid (mcpPort config)
  | Invalid issues =>
      issues <> [] /\
      ((exists i, clickhouseUrl_schema (in_clickhouseUrl input) = Invalid i) \/
       (exists i, mcpApiKey_schema (in_mcpApiKey input) = Invalid i) \/
       (exists i, mcpPort_schema (in_mcpPort input) = Invalid i))
  end.
Proof.
  unfold configSchema_safeParse.
  assert (Hne : forall A (s : Schema A) v i, s v = Invalid i -> i <> [] ->
            forall name, issues_of (field name (s v)) <> []).
  { intros A s v i -> Hi name. simpl. by destruct i. }
  assert (Hurl : forall i, clickhouseUrl_schema (in_clickhouseUrl input) = Invalid i -> i <> []).
  { intros i. rewrite clickhouseUrl_field.
    destruct (in_clickhouseUrl input) as [s|]; [|done].
    destruct (isUrl s); [done|]. by intros [= <-]. }
  assert (Hkey : forall i, mcpApiKey_schema (in_mcpApiKey input) = Invalid i -> i <> []).
  { intros i. rewrite mcpApiKey_field.
    destruct (in_mcpApiKey input) as [[|c s]|]; try done; by intros [= <-]. }
  assert (Hport : forall i, mcpPort_schema (in_mcpPort input) = Invalid i -> i <> []).
  { intros i. destruct (in_mcpPort input) as [s|]; [|done].
    unfold mcpPort_schema, z_default, z_coerce_number, run_checks,
      int_check, positive_check; simpl.
    destruct (isNaN (Number s)); [by intros [= <-]|].
    destruct (isInteger (Number s)), (gt_zero (Number s)); simpl;
      try done; by intros [= <-]. }
  destruct (clickhouseUrl_schema (in_clickhouseUrl input)) as [u|iu] eqn:Hu,
           (mcpApiKey_schema (in_mcpApiKey input)) as [k|ik] eqn:Hk,
           (mcpPort_schema (in_mcpPort input)) as [p|ip] eqn:Hp;
    cbn [field issues_of]; try done.
  all: split; [|eauto 6].
  all: rewrite ?app_nil_l, ?app_nil_r.
  all: try (intros Hnil; apply app_eq_nil in Hnil as [Hnil1 Hnil2];
            try apply app_eq_nil in Hnil2 as [Hnil2 Hnil3]).
  all: try (specialize (Hurl _ eq_refl)); try (specialize (Hkey _ eq_refl));
       try (specialize (Hport _ eq_refl)).
  all: repeat match goal with
       | Hx : map _ ?l = [] |- _ => apply map_eq_nil in Hx
       | |- map _ ?l <> [] => intros Hx
       end; try done.
Qed.

End ConfigFacts.

Section LoadConfig.
Context `{Host}.

Lemma or_undefined_Some v s :
  or_undefined v = Some s <-> v = Some s /\ s <> "".
Proof.
  destruct v as [[|c v]|]; simpl.
  - split; [done|]. by intros [[= <-] Hne].
  - split; [by intros [= <-]|by intros [[= <-] _]].
  - split; [done|by intros [? _]].
Qed.

(** What a parsed configuration holds, field by field. *)
Lemma loadConfig_fields env config :
  configSchema_safeParse (config_input env) = Valid config ->
  (env !! "MCP_API_KEY" = Some (mcpApiKey config) /\ mcpApiKey config <> "") /\
  match or_undefined (env !! "CLICKHOUSE_URL") with
  | None => clickhouseUrl config = default_clickhouseUrl
  | Some url => clickhouseUrl config = url /\ isUrl url = true
  end /\
  match or_undefined (env !! "MCP_PORT") with
  | None => mcpPort config = default_mcpPort
  | Some port =>
      mcpPort config = Number port /\
      isInteger (Number port) = true /\ gt_zero (Number port) = true
  end.
Proof.
  intros Hcfg. pose proof (safeParse_cases (config_input env)) as Hcases.
  rewrite Hcfg in Hcases. destruct Hcases as (Hurl & Hkey & Hport).
  cbn [config_input in_clickhouseUrl in_mcpApiKey in_mcpPort] in *.
  rewrite clickhouseUrl_field in Hurl. rewrite mcpApiKey_field in Hkey.
  apply mcpPort_field_valid in Hport.
  split; [|split].
  - destruct (env !! "MCP_API_KEY") as [[|c s]|]; try done.
    injection Hkey as <-. done.
  - destruct (or_undefined (env !! "CLICKHOUSE_URL")) as [url|]; [|congruence].
    destruct (isUrl url); [|done]. injection Hurl as <-. done.
  - destruct (or_undefined (env !! "MCP_PORT")) as [port|]; [|done].
    destruct Hport as (-> & ? & ?). done.
Qed.

(** The conditions under which the three fields parse. *)
Lemma loadConfig_valid env secret :
  env !! "MCP_API_KEY" = Some secret -> secret <> "" ->
  (forall url, env !! "CLICKHOUSE_URL" = Some url -> url <> "" -> isUrl url = true) ->
  (forall port, env !! "MCP_PORT" = Some port -> port <> "" ->
     isInteger (Number port) = true /\ gt_zero (Number port) = true) ->
  exists config, configSchema_safeParse (config_input env) = Valid config.
Proof.
  intros Hkey Hsecret Hurl Hport.
  pose proof (safeParse_cases (config_input env)) as Hcases.
  destruct (configSchema_safeParse (config_input env)) as [config|issues];
    [by exists config|exfalso].
  cbn [config_input in_clickhouseUrl in_mcpApiKey in_mcpPort] in Hcases.
  destruct Hcases as (_ & [(i & Hi)|[(i & Hi)|(i & Hi)]]).
  - rewrite clickhouseUrl_field in Hi.
    destruct (or_undefined (env !! "CLICKHOUSE_URL")) as [url|] eqn:Hu; [|done].
    apply or_undefined_Some in Hu as [Hu Hne]. by rewrite (Hurl url Hu Hne) in Hi.
  - rewrite mcpApiKey_field, Hkey in Hi. by destruct secret.
  - destruct (or_undefined (env !! "MCP_PORT")) as [port|] eqn:Hp.
    + apply or_undefined_Some in Hp as [Hp Hne].
      destruct (Hport port Hp Hne) as [Hint Hpos].
      assert (mcpPort_schema (Some port) = Valid (Number port)) as Hv
        by by apply mcpPort_field_valid.
      congruence.
    + done.
Qed.

(** C7, as amended: [loadConfig] succeeds exactly when the secret is set and
  not empty, the URL, if set and not empty, passes the URL test, and the
  port, if set and not empty, coerces to a positive integer.  A missing or
  empty secret always fails.  A run ends in a configuration all of whose
  fields passed, or in a thrown error that carries at least one issue and
  no configuration. *)
Theorem loadConfig_succeeds_iff (env : gmap string string) (w : World) :
((exists config, loadConfig env w = (Completed config, w)) <->
   (exists secret, env !! "MCP_API_KEY" = Some secret /\ secret <> "") /\
   (forall url, env !! "CLICKHOUSE_URL" = Some url -> url <> "" ->
      isUrl url = true) /\
   (forall port, env !! "MCP_PORT" = Some port -> port <> "" ->
      isInteger (Number port) = true /\ gt_zero (Number port) = true)) /\
(env !! "MCP_API_KEY" = None \/ env !! "MCP_API_KEY" = Some "" ->
   exists issues, loadConfig env w = (Thrown (ZodError issues), w)) /\
((exists config,
     loadConfig env w = (Completed config, w) /\
     mcpApiKey config <> "" /\
     (clickhouseUrl config = default_clickhouseUrl \/ isUrl (clickhouseUrl config) = true) /\
     (mcpPort config = default_mcpPort \/
      isInteger (mcpPort config) = true /\ gt_zero (mcpPort config) = true))
 \/ (exists issues,
     issues <> [] /\ loadConfig env w = (Thrown (ZodError issues), w))).
Proof.
rewrite loadConfig_run.
pose proof (safeParse_cases (config_input env)) as Hcases.
destruct (configSchema_safeParse (config_input env)) as [config|issues] eqn:Hcfg.
- destruct (loadConfig_fields env config Hcfg) as ((Hkey & Hsecret) & Hurl & Hport).
  split; [split|split].
  + intros _. split; [by exists (mcpApiKey config)|]. split.
    * intros url Hu Hne.
      assert (or_undefined (env !! "CLICKHOUSE_URL") = Some url) as Hou
        by by apply or_undefined_Some.
      rewrite Hou in Hurl. by destruct Hurl.
    * intros port Hp Hne.
      assert (or_undefined (env !! "MCP_PORT") = Some port) as Hop
        by by apply or_undefined_Some.
      rewrite Hop in Hport. by destruct Hport.
  + intros _. by exists config.
  + intros [Hnone|Hempty]; congruence.
  + left. exists config. split; [done|]. split; [done|]. split.
    * destruct (or_undefined (env !! "CLICKHOUSE_URL")); [|by left].
      destruct Hurl as [-> ?]. by right.
    * destruct (or_undefined (env !! "MCP_PORT")); [|by left].
      destruct Hport as (-> & ? & ?). by right.
- split; [split|split].
  + by intros [config [=]].
  + intros ((secret & Hkey & Hsecret) & Hurl & Hport).
    destruct (loadConfig_valid env secret Hkey Hsecret Hurl Hport) as [config Hv].
    congruence.
  + intros _. by exists issues.
  + right. exists issues. by destruct Hcases.
Qed.

End LoadConfig.

(** C7 as it was stated does not hold: with the secret set and the URL and
    the port set to the empty string, [loadConfig] succeeds, with the
    defaults, although the empty string is no absolute URL and coerces to 0,
    which is not positive. *)
Lemma loadConfig_empty_values_accepted :
  let host := ExampleHost.host ExampleHost.always_down in
  let env : gmap string string :=
    <["CLICKHOUSE_URL" := ""]> (<["MCP_PORT" := ""]> ExampleHost.env_secret) in
  @loadConfig host env (boot 0) =
    (Completed (mkConfig "http://localhost:8123" "test-key" (number_of_Z 3001)), boot 0) /\
  env !! "CLICKHOUSE_URL" = Some "" /\ @isUrl host "" = false /\
  env !! "MCP_PORT" = Some "" /\ gt_zero (@Number host "") = false /\
  ~ ((exists config, @loadConfig host env (boot 0) = (Completed config, boot 0)) <->
       (exists secret, env !! "MCP_API_KEY" = Some secret /\ secret <> "") /\
       (forall url, env !! "CLICKHOUSE_URL" = Some url -> @isUrl host url = true) /\
       (forall port, env !! "MCP_PORT" = Some port ->
          isInteger (@Number host port) = true /\ gt_zero (@Number host port) = true)).
Proof.
  cbv zeta.
  split; [by vm_compute|]. split; [by vm_compute|]. split; [by vm_compute|].
  split; [by vm_compute|]. split; [by vm_compute|].
  intros [Hto _].
  destruct Hto as (_ & Hurl & _).
  - eexists. vm_compute. reflexivity.
  - specialize (Hurl "" ltac:(by vm_compute)). vm_compute in Hurl. discriminate.
Qed.

(** C10: an empty [CLICKHOUSE_URL] or [MCP_PORT] is read as an absent one:
    [loadConfig] does the same on an environment that sets it to the empty
    string and on the environment without it, so with a good secret the
    empty values give the defaults [http://localhost:8123] and 3001.  An
    empty [MCP_API_KEY] reaches the schema as it is and fails its minimum
    length, with the message of the schema. *)
Theorem empty_url_and_port_are_absent `{Host}
    (env : gmap string string) (w : World) :
  loadConfig (<["CLICKHOUSE_URL" := ""]> env) w
    = loadConfig (delete "CLICKHOUSE_URL" env) w /\
  loadConfig (<["MCP_PORT" := ""]> env) w
    = loadConfig (delete "MCP_PORT" env) w /\
  (forall secret, secret <> "" ->
     loadConfig (<["CLICKHOUSE_URL" := ""]>
                   (<["MCP_PORT" := ""]> (<["MCP_API_KEY" := secret]> env))) w
       = (Completed (mkConfig "http://localhost:8123" secret (number_of_Z 3001)), w)) /\
  (exists issues,
     loadConfig (<["MCP_API_KEY" := ""]> env) w = (Thrown (ZodError issues), w) /\
     mkIssue ["mcpApiKey"] too_small (Some "MCP_API_KEY is required") ∈ issues).
Proof.
  split; [|split; [|split]].
  - unfold loadConfig, config_input.
    rewrite lookup_insert_eq, lookup_delete_eq.
    by rewrite !lookup_insert_ne, !lookup_delete_ne.
  - unfold loadConfig, config_input.
    rewrite lookup_insert_eq, lookup_delete_eq.
    by rewrite !lookup_insert_ne, !lookup_delete_ne.
  - intros secret Hsecret.
    unfold loadConfig, config_input.
    rewrite lookup_insert_eq.
    rewrite (lookup_insert_ne _ "CLICKHOUSE_URL" "MCP_PORT") by done.
    rewrite lookup_insert_eq.
    rewrite (lookup_insert_ne _ "CLICKHOUSE_URL" "MCP_API_KEY") by done.
    rewrite (lookup_insert_ne _ "MCP_PORT" "MCP_API_KEY") by done.
    rewrite lookup_insert_eq.
    by destruct secret.
  - unfold loadConfig, config_input. rewrite lookup_insert_eq.
    unfold configSchema_parse, configSchema_safeParse.
    cbn [in_mcpApiKey in_clickhouseUrl in_mcpPort].
    rewrite mcpApiKey_field. cbn [field issues_of map issue_path issue_code issue_message].
    destruct (field "clickhouseUrl" _) as [u|iu], (field "mcpPort" _) as [p|ip];
      eexists; (split; [reflexivity|]); cbn [issues_of];
      rewrite ?elem_of_app, ?elem_of_cons; auto.
Qed.

(** ** The transport *)

(** C5: a [POST /mcp] whose [Authorization] header is absent, or present
    with a value other than ["Bearer "] followed by the configured secret,
    is answered 401 by a server that [startHttpServer] returned.  The world
    is left as it was: nothing was handed to the protocol layer. *)
Theorem mcp_without_the_bearer_is_401 `{Host} `{McpSdk}
    (server : McpServer) (config : Config) (http : HttpServer)
    (req : Request) (w0 w1 w : World) :
  startHttpServer server config w0 = (Completed http, w1) ->
  req_method req = "POST" ->
  req_path req = "/mcp" ->
  (req_headers req !! "authorization" = None \/
   exists presented,
     req_headers req !! "authorization" = Some presented /\
     presented <> "Bearer " +:+ mcpApiKey config) ->
  on_request http req w = (Completed unauthorized, w) /\
  res_status unauthorized = 401.
Proof.
  intros Hstart Hmethod Hpath Hauth. split; [|done].
  unfold startHttpServer, bind, emit, throw, ret in Hstart.
  destruct (listenError (mcpPort config)); [done|].
  injection Hstart as <- _.
  cbn [on_request]. unfold handleRequest. rewrite Hmethod, Hpath.
  cbn [String.eqb Ascii.eqb Bool.eqb andb].
  destruct Hauth as [->|(presented & -> & Hne)]; [done|].
  by apply String.eqb_neq in Hne as ->.
Qed.

(** C6: a [GET /health] is answered 200 with the body [{ status: "ok" }] by
    a server that [startHttpServer] returned, whatever headers it carries
    and whatever the state of the world and of the store. *)
Theorem health_is_200_ok `{Host} `{McpSdk}
    (server : McpServer) (config : Config) (http : HttpServer)
    (req : Request) (w0 w1 w : World) :
  startHttpServer server config w0 = (Completed http, w1) ->
  req_method req = "GET" ->
  req_path req = "/health" ->
  on_request http req w =
    (Completed {| res_status := 200; res_body := JsonObject [("status", "ok")] |}, w).
Proof.
  intros Hstart Hmethod Hpath.
  unfold startHttpServer, bind, emit, throw, ret in Hstart.
  destruct (listenError (mcpPort config)); [done|].
  injection Hstart as <- _.
  cbn [on_request]. unfold handleRequest. by rewrite Hmethod, Hpath.
Qed.

(** C5 on the second failing request of the test suite: a wrong key. *)
Lemma mcp_wrong_key_is_401 :
  let host := ExampleHost.host ExampleHost.always_down in
  let config := ExampleHost.test_config 0 in
  let http := mkHttpServer (mcpPort config)
                (@handleRequest ExampleHost.sdk ExampleHost.test_server config) in
  on_request http (ExampleHost.post_mcp (Some "Bearer wrong-key")) (boot 0)
    = (Completed unauthorized, boot 0) /\
  res_status unauthorized = 401.
Proof.
  intros host config http.
  apply (@mcp_without_the_bearer_is_401 host ExampleHost.sdk ExampleHost.test_server
           config http (ExampleHost.post_mcp (Some "Bearer wrong-key"))
           (boot 0) (mkWorld 0 0 [EvListen (mcpPort config)]) (boot 0)).
  - reflexivity.
  - reflexivity.
  - reflexivity.
  - right. exists "Bearer wrong-key". split; [by vm_compute|discriminate].
Defined.

(** C6 on the request of the test suite: no header at all, and a store
    that is down. *)
Lemma health_without_headers_is_200 :
  let host := ExampleHost.host ExampleHost.always_down in
  let config := ExampleHost.test_config 0 in
  let http := mkHttpServer (mcpPort config)
                (@handleRequest ExampleHost.sdk ExampleHost.test_server config) in
  on_request http ExampleHost.get_health (boot 0) =
    (Completed {| res_status := 200; res_body := JsonObject [("status", "ok")] |},
     boot 0).
Proof.
  intros host config http.
  apply (@health_is_200_ok host ExampleHost.sdk ExampleHost.test_server
           config http ExampleHost.get_health
           (boot 0) (mkWorld 0 0 [EvListen (mcpPort config)]) (boot 0));
    reflexivity.
Defined.

(** The comparison is exact: no header, another scheme spelling, a prefix
    of the secret, the secret with a suffix and the bare secret are all
    refused; the exact value is handed to the protocol layer. *)
Example mcp_auth_examples :
  let handle := fun authorization =>
    @handleRequest ExampleHost.sdk ExampleHost.test_server
      (ExampleHost.test_config 0) (ExampleHost.post_mcp authorization) (boot 0) in
  handle None = (Completed unauthorized, boot 0) /\
  handle (Some "bearer test-secret-key") = (Completed unauthorized, boot 0) /\
  handle (Some "Bearer test-secret") = (Completed unauthorized, boot 0) /\
  handle (Some "Bearer test-secret-key ") = (Completed unauthorized, boot 0) /\
  handle (Some "test-secret-key") = (Completed unauthorized, boot 0) /\
  handle (Some "Bearer test-secret-key") =
    (Completed {| res_status := 200; res_body := Serialized "{}" |},
     mkWorld 0 0 [EvDispatch "{}"]).
Proof. cbv zeta. repeat split; by vm_compute. Qed.

(** The three cases of tests/unit/ping.test.ts, at the epoch. *)
Example ping_examples :
  let host := ExampleHost.host ExampleHost.always_down in
  let run := fun outcome => (@ping host (mkClient "http://localhost:8123" (fun _ => outcome)) (boot 0)).1 in
  run (Resolved true) = Completed (mkPingResult ok true "1970-01-01T00:00:00.000Z") /\
  run (Resolved false) = Completed (mkPingResult error false "1970-01-01T00:00:00.000Z") /\
  run (Rejected (Error "Connection refused"))
    = Completed (mkPingResult error false "1970-01-01T00:00:00.000Z").
Proof. cbv zeta. repeat split; by vm_compute. Qed.

(** The cases of the configuration test suite, on the example host. *)
Example loadConfig_examples :
  let host := ExampleHost.host ExampleHost.always_down in
  let load := fun env => (@loadConfig host env (boot 0)).1 in
  load {[ "CLICKHOUSE_URL" := "http://clickhouse:8123";
          "MCP_API_KEY" := "test-key"; "MCP_PORT" := "4000" ]}
    = Completed (mkConfig "http://clickhouse:8123" "test-key" (number_of_Z 4000)) /\
  load {[ "MCP_API_KEY" := "test-key" ]}
    = Completed (mkConfig "http://localhost:8123" "test-key" (number_of_Z 3001)) /\
  load ∅ = Thrown (ZodError [mkIssue ["mcpApiKey"] invalid_type None]) /\
  load {[ "MCP_API_KEY" := "" ]}
    = Thrown (ZodError [mkIssue ["mcpApiKey"] too_small (Some "MCP_API_KEY is required")]) /\
  load {[ "MCP_API_KEY" := "test-key"; "CLICKHOUSE_URL" := "not-a-url" ]}
    = Thrown (ZodError [mkIssue ["clickhouseUrl"] invalid_string None]).
Proof. cbv zeta. repeat split; by vm_compute. Qed.

(** * Further properties of the sources *)

(** ** index.ts: when [main] gives up and when it goes on *)

Section MainOutcome.
Context `{Host} `{McpSdk}.

Lemma listen_outcome_asks config :
  EvListen (mcpPort config) ∈ (listen_outcome config).2.
Proof.
  unfold listen_outcome.
  destruct (listenError (mcpPort config)); apply elem_of_cons; by left.
Qed.

(** X1: with a configuration that loads, [main] exits, with status 1, exactly
    when the probe answers [false] on each of its first 30 calls, and it
    asks for the listener exactly when one of these 30 answers is [true].
    Answers after the 30th play no part. *)
Theorem main_exits_iff_thirty_failures
    (env : gmap string string) (config : Config) (t0 : Z) :
  loadConfig env (boot t0) = (Completed config, boot t0) ->
  let client := createClickHouseClient config in
  let run := main env (boot t0) in
  (run.1 = Exited 1 <->
     forall j, (j < 30)%nat -> probe_answer client j = false) /\
  ((exists port, EvListen port ∈ trace run.2) <->
     exists j, (j < 30)%nat /\ probe_answer client j = true) /\
  (forall code, run.1 = Exited code -> code = 1).
Proof.
  intros Hcfg client run. apply loadConfig_completed in Hcfg.
  destruct (first_true_or_none client 0 30) as [(k & Hk & Hfalse & Htrue)|Hnone].
  - assert (Hrun : run =
        ((listen_outcome config).1,
         mkWorld (0 + S k) (t0 + (Z.of_nat (S k) - 1) * 2000)
           ([] ++ retry_events client 30 2000 0 1 (S k - 1)
               ++ [EvPing (Resolved true); EvLog (healthy_line (S k))]
               ++ (listen_outcome config).2))).
    { apply (main_healthy env config (boot t0) (S k)); [done|lia| |].
      - intros j Hj. apply Hfalse. lia.
      - by replace (S k - 1)%nat with k by lia. }
    rewrite Hrun. cbn [fst snd trace].
    destruct (listen_outcome_quiet config) as (_ & _ & Hnoexit).
    split; [|split].
    + split; [done|]. intros Hall. specialize (Hall k Hk).
      simpl in Htrue. congruence.
    + split; [intros _; by exists k|]. intros _. exists (mcpPort config).
      rewrite app_nil_l, !elem_of_app. right. right. apply listen_outcome_asks.
    + intros code Hcode. unfold listen_outcome in Hcode.
      by destruct (listenError (mcpPort config)).
  - assert (Hrun : run =
        (Exited 1,
         mkWorld (0 + 30) (t0 + 29 * 2000)
           ([] ++ retry_events client 30 2000 0 1 29
               ++ [EvPing (client_ping client (0 + 29));
                   EvError (unreachable_line 30) None]))).
    { by apply (main_unreachable env config (boot t0)). }
    rewrite Hrun. cbn [fst snd trace].
    split; [|split].
    + split; [|done]. intros _ j Hj. by apply (Hnone j).
    + split.
      * intros (port & Hin). exfalso. revert Hin.
        rewrite app_nil_l, elem_of_app, !elem_of_cons.
        intros [Hin|[?|[?|Hin]]]; try done.
        -- by apply not_listen_retries in Hin.
        -- by apply elem_of_nil in Hin.
      * intros (j & Hj & Htrue). specialize (Hnone j Hj). simpl in Hnone. congruence.
    + by intros code [= <-].
Qed.

End MainOutcome.

(** X1 on the example host: the store comes up on its 30th ping, the last
    one [main] makes. *)
Lemma main_goes_on_at_the_last_attempt :
  let host := ExampleHost.host (ExampleHost.up_after 29) in
  let config := mkConfig "http://localhost:8123" "test-key" (number_of_Z 3001) in
  let client := @createClickHouseClient host config in
  let run := @main host ExampleHost.sdk ExampleHost.env_secret (boot 0) in
  (run.1 = Exited 1 <->
     forall j, (j < 30)%nat -> probe_answer client j = false) /\
  ((exists port, EvListen port ∈ trace run.2) <->
     exists j, (j < 30)%nat /\ probe_answer client j = true) /\
  (forall code, run.1 = Exited code -> code = 1).
Proof.
  intros host config.
  apply (@main_exits_iff_thirty_failures host ExampleHost.sdk
           ExampleHost.env_secret config 0).
  vm_compute. reflexivity.
Defined.

(** ** tools/ping.ts and server.ts: every ping is a fresh probe *)

Section PingTool.
Context `{Host}.

(** What [ping] leaves behind: one native ping more, nothing else. *)
Lemma ping_run client w :
  ping client w =
    (Completed
       {| status := if probe_answer client (pings w) then ok else error;
          clickhouse := probe_answer client (pings w);
          timestamp := toISOString (now w) |},
     mkWorld (S (pings w)) (now w)
       (trace w ++ [EvPing (client_ping client (pings w))])).
Proof.
  unfold ping, bind. rewrite checkClickHouseHealth_run.
  by unfold date_now, ret.
Qed.

(** X2: nothing is cached between pings.  Two pings in a row issue two
    native pings, and each result reports the outcome of its own: the
    second is not fixed by the first. *)
Theorem ping_twice_probes_twice (client : ClickHouseClient) (w : World) :
  exists (r1 r2 : PingResult) (w' : World),
    (let* r1 := ping client in
     let* r2 := ping client in
     ret (r1, r2)) w = (Completed (r1, r2), w') /\
    clickhouse r1 = probe_answer client (pings w) /\
    clickhouse r2 = probe_answer client (S (pings w)) /\
    pings w' = S (S (pings w)) /\
    trace w' = trace w ++ [EvPing (client_ping client (pings w));
                           EvPing (client_ping client (S (pings w)))].
Proof.
  unfold bind. rewrite ping_run. cbn [pings now trace].
  rewrite ping_run. cbn [pings now trace]. unfold ret.
  eexists _, _, _. split; [reflexivity|]. cbn [clickhouse pings trace].
  by rewrite <- app_assoc.
Qed.

(** X3: [createMcpServer] registers one tool, named ["ping"].  Run in any
    world, its handler does not throw, whatever the store does: it makes
    one native ping and returns one text item, the indented JSON of the
    ping result for that ping. *)
Theorem createMcpServer_registers_ping (client : ClickHouseClient) (w : World) :
  exists tool : Tool,
    server_tools (createMcpServer client) = [tool] /\
    tool_name tool = "ping" /\
    tool_description tool = "Check MCP server and ClickHouse connectivity" /\
    exists (r : PingResult),
      ping client w = (Completed r, mkWorld (S (pings w)) (now w)
                         (trace w ++ [EvPing (client_ping client (pings w))])) /\
      tool_handler tool w =
        (Completed {| content := [ {| content_type := "text";
                                      content_text := stringify_PingResult r |} ] |},
         mkWorld (S (pings w)) (now w)
           (trace w ++ [EvPing (client_ping client (pings w))])) /\
      (clickhouse r = true <-> client_ping client (pings w) = Resolved true).
Proof.
  eexists. split; [reflexivity|]. split; [done|]. split; [done|].
  eexists. split; [apply ping_run|]. split.
  - cbn [tool_handler]. unfold bind. rewrite ping_run. done.
  - cbn [clickhouse]. unfold probe_answer.
    by destruct (client_ping client (pings w)) as [[]|].
Qed.

End PingTool.

(** ** config.ts: what [loadConfig] returns and what its error names *)

Section LoadConfigValues.
Context `{Host}.

(** X4: a configuration that [loadConfig] returns holds the values of the
    environment: the secret as it is set, the URL and the port as they are
    set when they are set and not empty (the port through [Number]), and
    the defaults otherwise.  Loading leaves the world untouched. *)
Theorem loadConfig_returns_environment_values
    (env : gmap string string) (config : Config) (w w' : World) :
  loadConfig env w = (Completed config, w') ->
  w' = w /\
  env !! "MCP_API_KEY" = Some (mcpApiKey config) /\
  clickhouseUrl config =
    match env !! "CLICKHOUSE_URL" with
    | None | Some EmptyString => "http://localhost:8123"
    | Some url => url
    end /\
  mcpPort config =
    match env !! "MCP_PORT" with
    | None | Some EmptyString => number_of_Z 3001
    | Some port => Number port
    end.
Proof.
  intros Hload. pose proof (loadConfig_completed _ _ _ _ Hload) as Hcfg.
  rewrite loadConfig_run, Hcfg in Hload. injection Hload as <-.
  destruct (loadConfig_fields env config Hcfg) as ((Hkey & _) & Hurl & Hport).
  split; [done|]. split; [done|]. split.
  - destruct (env !! "CLICKHOUSE_URL") as [[|c url]|]; cbn [or_undefined] in Hurl;
      [done| |done]. by destruct Hurl.
  - destruct (env !! "MCP_PORT") as [[|c port]|]; cbn [or_undefined] in Hport;
      [done| |done]. by destruct Hport.
Qed.

Lemma field_issues {A} (name : string) (r : ParseResult A) (i : ZodIssue) :
  (forall i0, i0 ∈ issues_of r -> issue_path i0 = []) ->
  i ∈ issues_of (field name r) -> issue_path i = [name].
Proof.
  intros Hpaths. destruct r as [a|issues]; cbn [field issues_of].
  - by intros Hin%elem_of_nil.
  - intros (i0 & -> & Hin0)%list_elem_of_fmap. cbn [issue_path].
    by rewrite (Hpaths i0 Hin0).
Qed.

Lemma field_issues_nonempty {A} (name : string) (r : ParseResult A) :
  (exists i, i ∈ issues_of (field name r)) <->
  exists issues, r = Invalid issues /\ issues <> [].
Proof.
  destruct r as [a|issues]; cbn [field issues_of].
  - split; [by intros (i & Hin%elem_of_nil)|by intros (issues & [=] & _)].
  - split.
    + intros (i & (i0 & _ & Hin0)%list_elem_of_fmap). exists issues.
      split; [done|]. intros ->. by apply elem_of_nil in Hin0.
    + intros (issues' & [= <-] & Hne). destruct issues as [|i0 issues]; [done|].
      eexists. apply list_elem_of_fmap. exists i0. split; [done|]. by left.
Qed.

Lemma clickhouseUrl_issue_paths input i :
  i ∈ issues_of (clickhouseUrl_schema input) -> issue_path i = [].
Proof.
  rewrite clickhouseUrl_field. destruct input as [s|]; [|by intros ?%elem_of_nil].
  destruct (isUrl s); [by intros ?%elem_of_nil|].
  by intros ->%list_elem_of_singleton.
Qed.

Lemma mcpApiKey_issue_paths input i :
  i ∈ issues_of (mcpApiKey_schema input) -> issue_path i = [].
Proof.
  rewrite mcpApiKey_field.
  destruct input as [[|c s]|]; cbn [issues_of];
    [by intros ->%list_elem_of_singleton|by intros ?%elem_of_nil
    |by intros ->%list_elem_of_singleton].
Qed.

Lemma mcpPort_issue_paths input i :
  i ∈ issues_of (mcpPort_schema input) -> issue_path i = [].
Proof.
  destruct input as [s|]; [|by intros ?%elem_of_nil].
  unfold mcpPort_schema, z_default, z_coerce_number, run_checks,
    int_check, positive_check.
  cbn -[isNaN isInteger gt_zero].
  destruct (isNaN (Number s)); [by intros ->%list_elem_of_singleton|].
  destruct (isInteger (Number s)), (gt_zero (Number s));
    cbn -[isNaN isInteger gt_zero]; rewrite ?elem_of_cons, ?elem_of_nil;
    intuition (by subst).
Qed.

Lemma mcpPort_invalid input :
  (exists issues, mcpPort_schema input = Invalid issues /\ issues <> []) <->
  exists s, input = Some s /\
    (isInteger (Number s) = false \/ gt_zero (Number s) = false).
Proof.
  destruct input as [s|].
  - destruct (isInteger (Number s)) eqn:Hint, (gt_zero (Number s)) eqn:Hpos.
    + assert (mcpPort_schema (Some s) = Valid (Number s)) as ->
        by by apply mcpPort_field_valid.
      split; [by intros (issues & [=] & _)|]. intros (s' & [= <-] & [?|?]); congruence.
    + split; [intros _; exists s; auto|]. intros _.
      destruct (mcpPort_schema (Some s)) as [n|issues] eqn:Hp.
      * apply mcpPort_field_valid in Hp as (-> & _ & ?). congruence.
      * exists issues. split; [done|].
        unfold mcpPort_schema, z_default, z_coerce_number, run_checks,
          int_check, positive_check in Hp.
        cbn -[isNaN isInteger gt_zero] in Hp. rewrite Hint, Hpos in Hp.
        destruct (isNaN (Number s)); by injection Hp as <-.
    + split; [intros _; exists s; auto|]. intros _.
      destruct (mcpPort_schema (Some s)) as [n|issues] eqn:Hp.
      * apply mcpPort_field_valid in Hp as (-> & ? & _). congruence.
      * exists issues. split; [done|].
        unfold mcpPort_schema, z_default, z_coerce_number, run_checks,
          int_check, positive_check in Hp.
        cbn -[isNaN isInteger gt_zero] in Hp. rewrite Hint, Hpos in Hp.
        destruct (isNaN (Number s)); by injection Hp as <-.
    + split; [intros _; exists s; auto|]. intros _.
      destruct (mcpPort_schema (Some s)) as [n|issues] eqn:Hp.
      * apply mcpPort_field_valid in Hp as (-> & ? & _). congruence.
      * exists issues. split; [done|].
        unfold mcpPort_schema, z_default, z_coerce_number, run_checks,
          int_check, positive_check in Hp.
        cbn -[isNaN isInteger gt_zero] in Hp. rewrite Hint, Hpos in Hp.
        destruct (isNaN (Number s)); by injection Hp as <-.
  - split; [by intros (issues & [=] & _)|by intros (s & [=] & _)].
Qed.

Lemma safeParse_issues input issues :
  configSchema_safeParse input = Invalid issues ->
  issues =
    issues_of (field "clickhouseUrl" (clickhouseUrl_schema (in_clickhouseUrl input)))
    ++ issues_of (field "mcpApiKey" (mcpApiKey_schema (in_mcpApiKey input)))
    ++ issues_of (field "mcpPort" (mcpPort_schema (in_mcpPort input))).
Proof.
  unfold configSchema_safeParse.
  destruct (field "clickhouseUrl" _), (field "mcpApiKey" _), (field "mcpPort" _);
    by intros [= <-].
Qed.

(** X5: the error [loadConfig] throws names the fields that failed, all of
    them and no other: it has an issue under [mcpApiKey] exactly when the
    secret is missing or empty, one under [clickhouseUrl] exactly when the
    URL is set, not empty and fails the URL test, and one under [mcpPort]
    exactly when the port is set, not empty and does not coerce to a
    positive integer.  The world is untouched. *)
Theorem loadConfig_error_names_failing_fields
    (env : gmap string string) (issues : list ZodIssue) (w w' : World) :
  loadConfig env w = (Thrown (ZodError issues), w') ->
  w' = w /\
  Forall (fun i => issue_path i = ["clickhouseUrl"] \/
                   issue_path i = ["mcpApiKey"] \/
                   issue_path i = ["mcpPort"]) issues /\
  ((exists i, i ∈ issues /\ issue_path i = ["mcpApiKey"]) <->
     env !! "MCP_API_KEY" = None \/ env !! "MCP_API_KEY" = Some "") /\
  ((exists i, i ∈ issues /\ issue_path i = ["clickhouseUrl"]) <->
     exists url, env !! "CLICKHOUSE_URL" = Some url /\ url <> "" /\
                 isUrl url = false) /\
  ((exists i, i ∈ issues /\ issue_path i = ["mcpPort"]) <->
     exists port, env !! "MCP_PORT" = Some port /\ port <> "" /\
       (isInteger (Number port) = false \/ gt_zero (Number port) = false)).
Proof.
  rewrite loadConfig_run.
  destruct (configSchema_safeParse (config_input env)) as [config|issues'] eqn:Hcfg;
    [done|].
  intros [= <- <-]. apply safeParse_issues in Hcfg.
  cbn [config_input in_clickhouseUrl in_mcpApiKey in_mcpPort] in Hcfg.
  set (U := clickhouseUrl_schema (or_undefined (env !! "CLICKHOUSE_URL"))) in *.
  set (K := mcpApiKey_schema (env !! "MCP_API_KEY")) in *.
  set (P := mcpPort_schema (or_undefined (env !! "MCP_PORT"))) in *.
  assert (HU : forall i, i ∈ issues_of (field "clickhouseUrl" U) ->
                 issue_path i = ["clickhouseUrl"]).
  { intros i. apply field_issues. apply clickhouseUrl_issue_paths. }
  assert (HK : forall i, i ∈ issues_of (field "mcpApiKey" K) ->
                 issue_path i = ["mcpApiKey"]).
  { intros i. apply field_issues. apply mcpApiKey_issue_paths. }
  assert (HP : forall i, i ∈ issues_of (field "mcpPort" P) ->
                 issue_path i = ["mcpPort"]).
  { intros i. apply field_issues. apply mcpPort_issue_paths. }
  assert (Hsplit : forall i, i ∈ issues' <->
            i ∈ issues_of (field "clickhouseUrl" U) \/
            i ∈ issues_of (field "mcpApiKey" K) \/
            i ∈ issues_of (field "mcpPort" P)).
  { intros i. by rewrite Hcfg, !elem_of_app. }
  split; [done|]. split; [|split; [|split]].
  - apply Forall_forall. intros i [Hi|[Hi|Hi]]%Hsplit; auto.
  - transitivity (exists i, i ∈ issues_of (field "mcpApiKey" K)).
    + split.
      * intros (i & [Hi|[Hi|Hi]]%Hsplit & Hpath); [|by exists i|].
        -- rewrite (HU i Hi) in Hpath. done.
        -- rewrite (HP i Hi) in Hpath. done.
      * intros (i & Hi). exists i. split; [apply Hsplit; auto|by apply HK].
    + rewrite field_issues_nonempty. unfold K. rewrite mcpApiKey_field.
      destruct (env !! "MCP_API_KEY") as [[|c s]|].
      * split; [auto|]. intros _. by eexists.
      * split; [by intros (? & [=] & _)|]. by intros [[=]|[=]].
      * split; [auto|]. intros _. by eexists.
  - transitivity (exists i, i ∈ issues_of (field "clickhouseUrl" U)).
    + split.
      * intros (i & [Hi|[Hi|Hi]]%Hsplit & Hpath); [by exists i| |].
        -- rewrite (HK i Hi) in Hpath. done.
        -- rewrite (HP i Hi) in Hpath. done.
      * intros (i & Hi). exists i. split; [apply Hsplit; auto|by apply HU].
    + rewrite field_issues_nonempty. unfold U. rewrite clickhouseUrl_field.
      destruct (or_undefined (env !! "CLICKHOUSE_URL")) as [url|] eqn:Hu.
      * apply or_undefined_Some in Hu as [Hu Hne]. rewrite Hu.
        destruct (isUrl url) eqn:Hurl.
        -- split; [by intros (? & [=] & _)|].
           intros (url' & [= <-] & _ & ?). congruence.
        -- split; [intros _; by exists url|]. intros _. by eexists.
      * split; [by intros (? & [=] & _)|].
        intros (url & Hu' & Hne & _).
        assert (or_undefined (env !! "CLICKHOUSE_URL") = Some url) as Hsome
          by by apply or_undefined_Some.
        congruence.
  - transitivity (exists i, i ∈ issues_of (field "mcpPort" P)).
    + split.
      * intros (i & [Hi|[Hi|Hi]]%Hsplit & Hpath); [| |by exists i].
        -- rewrite (HU i Hi) in Hpath. done.
        -- rewrite (HK i Hi) in Hpath. done.
      * intros (i & Hi). exists i. split; [apply Hsplit; auto|by apply HP].
    + rewrite field_issues_nonempty. unfold P. rewrite mcpPort_invalid.
      split.
      * intros (port & Hp & Hbad). apply or_undefined_Some in Hp as [Hp Hne].
        by exists port.
      * intros (port & Hp & Hne & Hbad). exists port. split; [|done].
        by apply or_undefined_Some.
Qed.

End LoadConfigValues.

(** X4 on the example host, every variable set. *)
Lemma loadConfig_returns_the_three_values :
  let host := ExampleHost.host ExampleHost.always_down in
  let env : gmap string string :=
    {[ "CLICKHOUSE_URL" := "http://clickhouse:8123";
       "MCP_API_KEY" := "test-key"; "MCP_PORT" := "4000" ]} in
  let config := mkConfig "http://clickhouse:8123" "test-key" (number_of_Z 4000) in
  boot 0 = boot 0 /\
  env !! "MCP_API_KEY" = Some (mcpApiKey config) /\
  clickhouseUrl config =
    match env !! "CLICKHOUSE_URL" with
    | None | Some EmptyString => "http://localhost:8123"
    | Some url => url
    end /\
  mcpPort config =
    match env !! "MCP_PORT" with
    | None | Some EmptyString => number_of_Z 3001
    | Some port => @Number host port
    end.
Proof.
  intros host env config.
  apply (@loadConfig_returns_environment_values host env config (boot 0) (boot 0)).
  vm_compute. reflexivity.
Defined.

(** X5 on the example host: no secret and a URL without a scheme give two
    issues, one for each. *)
Lemma loadConfig_names_both_failures :
  let host := ExampleHost.host ExampleHost.always_down in
  let env : gmap string string := {[ "CLICKHOUSE_URL" := "not-a-url" ]} in
  let issues := [mkIssue ["clickhouseUrl"] invalid_string None;
                 mkIssue ["mcpApiKey"] invalid_type None] in
  boot 0 = boot 0 /\
  Forall (fun i => issue_path i = ["clickhouseUrl"] \/
                   issue_path i = ["mcpApiKey"] \/
                   issue_path i = ["mcpPort"]) issues /\
  ((exists i, i ∈ issues /\ issue_path i = ["mcpApiKey"]) <->
     env !! "MCP_API_KEY" = None \/ env !! "MCP_API_KEY" = Some "") /\
  ((exists i, i ∈ issues /\ issue_path i = ["clickhouseUrl"]) <->
     exists url, env !! "CLICKHOUSE_URL" = Some url /\ url <> "" /\
                 @isUrl host url = false) /\
  ((exists i, i ∈ issues /\ issue_path i = ["mcpPort"]) <->
     exists port, env !! "MCP_PORT" = Some port /\ port <> "" /\
       (isInteger (@Number host port) = false \/ gt_zero (@Number host port) = false)).
Proof.
  intros host env issues.
  apply (@loadConfig_error_names_failing_fields host env issues (boot 0) (boot 0)).
  vm_compute. reflexivity.
Defined.

(** ** server.ts: the text of the tool result loses nothing *)

#[local] Arguments String.append !s1 s2 : simpl nomatch.

Lemma string_app_assoc (a b c : string) : (a +:+ b) +:+ c = a +:+ (b +:+ c).
Proof. induction a as [|x a IH]; simpl; [done|]. by rewrite IH. Qed.

(** Reading back what [json_escape_char] wrote gives the character. *)
Lemma json_unescape_head_escape (c : ascii) (rest : string) :
  json_unescape_head (json_escape_char c +:+ rest) = Some (c, rest).
Proof.
  destruct c as [b0 b1 b2 b3 b4 b5 b6 b7].
  destruct b0, b1, b2, b3, b4, b5, b6, b7; reflexivity.
Qed.

(** The body of a quoted string ends at the first quote that is not part
    of an escape, so two strings with the same text up to there are equal. *)
Lemma json_escape_inj (s1 : string) : forall (s2 r1 r2 : string),
  json_escape s1 +:+ dquote +:+ r1 = json_escape s2 +:+ dquote +:+ r2 ->
  s1 = s2 /\ r1 = r2.
Proof.
  induction s1 as [|c1 s1 IH]; intros [|c2 s2] r1 r2 Heq; cbn [json_escape] in Heq.
  - by injection Heq as ->.
  - rewrite string_app_assoc in Heq.
    apply (f_equal json_unescape_head) in Heq.
    by rewrite json_unescape_head_escape in Heq.
  - rewrite string_app_assoc in Heq.
    apply (f_equal json_unescape_head) in Heq.
    by rewrite json_unescape_head_escape in Heq.
  - rewrite !string_app_assoc in Heq.
    apply (f_equal json_unescape_head) in Heq.
    rewrite !json_unescape_head_escape in Heq. injection Heq as -> Heq.
    by destruct (IH _ _ _ Heq) as [-> ->].
Qed.

(** X6: the text [JSON.stringify(result, null, 2)] that the ping tool
    returns tells the ping result: two results with the same text have the
    same status, the same flag and the same timestamp, whatever characters
    the timestamp holds. *)
Theorem stringify_PingResult_inj (r1 r2 : PingResult) :
  stringify_PingResult r1 = stringify_PingResult r2 -> r1 = r2.
Proof.
  destruct r1 as [s1 c1 t1], r2 as [s2 c2 t2].
  unfold stringify_PingResult, json_quote. cbn [status clickhouse timestamp].
  destruct s1, s2, c1, c2; cbn; intros Heq; try discriminate Heq.
  all: injection Heq as Heq; rewrite !string_app_assoc in Heq;
       by destruct (json_escape_inj _ _ _ _ Heq) as [-> _].
Qed.

(** X6 on the result of a healthy ping at the epoch. *)
Lemma stringify_PingResult_inj_at_epoch :
  mkPingResult ok true "1970-01-01T00:00:00.000Z"
    = mkPingResult ok true "1970-01-01T00:00:00.000Z".
Proof.
  apply stringify_PingResult_inj. reflexivity.
Defined.

(** ** index.ts with server.ts: a ping after startup probes again *)

Section PingAfterStartup.
Context `{Host} `{McpSdk}.

(** X7: a startup that succeeded on attempt K does not settle later pings.
    Run in the world [main] leaves behind, the ping tool of the server that
    [main] created, on the client [main] created, makes native ping number
    K+1 and reports its outcome, which may be a failure. *)
Theorem ping_after_startup_probes_again
    (env : gmap string string) (config : Config) (t0 : Z) (K : nat) :
  loadConfig env (boot t0) = (Completed config, boot t0) ->
  (1 <= K <= 30)%nat ->
  (forall a, (1 <= a < K)%nat ->
     probe_answer (createClickHouseClient config) (a - 1) = false) ->
  probe_answer (createClickHouseClient config) (K - 1) = true ->
  let client := createClickHouseClient config in
  let started := (main env (boot t0)).2 in
  pings started = K /\
  forall tool, tool ∈ server_tools (createMcpServer client) ->
    exists (r : PingResult) (w' : World),
      tool_handler tool started =
        (Completed {| content := [ {| content_type := "text";
                                      content_text := stringify_PingResult r |} ] |},
         w') /\
      clickhouse r = probe_answer client K /\
      (status r = ok <-> client_ping client K = Resolved true) /\
      pings w' = S K.
Proof.
  intros Hcfg HK Hfalse Htrue client started.
  apply loadConfig_completed in Hcfg.
  assert (Hstarted : pings started = K).
  { unfold started.
    rewrite (main_healthy env config (boot t0) K Hcfg HK); [done| |done].
    intros j Hj. simpl. replace j with (S j - 1)%nat by lia. apply Hfalse. lia. }
  split; [done|].
  intros tool ->%list_elem_of_singleton.
  cbn [tool_handler]. unfold bind. rewrite ping_run, Hstarted.
  eexists _, _. split; [reflexivity|]. cbn [clickhouse status pings].
  split; [done|]. split; [|done].
  unfold probe_answer. by destruct (client_ping client K) as [[]|].
Qed.

End PingAfterStartup.

(** X7 on the example host: the store answers the first ping of the gate
    and then refuses connections. *)
Lemma ping_after_startup_on_a_store_gone_down :
  let host := ExampleHost.host ExampleHost.up_once in
  let config := mkConfig "http://localhost:8123" "test-key" (number_of_Z 3001) in
  let client := @createClickHouseClient host config in
  let started := (@main host ExampleHost.sdk ExampleHost.env_secret (boot 0)).2 in
  pings started = 1%nat /\
  forall tool, tool ∈ server_tools (@createMcpServer host client) ->
    exists (r : PingResult) (w' : World),
      tool_handler tool started =
        (Completed {| content := [ {| content_type := "text";
                                      content_text := stringify_PingResult r |} ] |},
         w') /\
      clickhouse r = probe_answer client 1 /\
      (status r = ok <-> client_ping client 1 = Resolved true) /\
      pings w' = 2%nat.
Proof.
  intros host config.
  apply (@ping_after_startup_probes_again host ExampleHost.sdk
           ExampleHost.env_secret config 0 1).
  - vm_compute. reflexivity.
  - lia.
  - intros a Ha. lia.
  - reflexivity.
Defined.
